(** * Customer-Support-Analytics: the data pipeline of [utils.py]

    A shallow embedding of the pandas pipeline ([clean_data],
    [filter_data], [calculate_kpis], [get_satisfaction_by_group],
    [get_resolution_by_group], [get_volume_by_group]) and of the option
    lists of the sidebar, and the properties its specification states.

    Modelling conventions.
    - A data frame is its ordered list of column names together with its
      rows; a row maps column names to cells.  [df[c]] on a column that
      is not in [columns] raises [KeyError], as in pandas.
    - A cell is null ([NA]: NaN, NaT, pd.NA, None), a string, a number or
      a timestamp.  Timestamps are nanoseconds since the epoch, as in
      pandas, and unbounded: the int64 range of pandas is not modelled.
      Numbers are exact rationals: the rounding of float64 arithmetic is
      not modelled.
    - Timestamps carry no timezone.  pandas refuses to subtract or to
      compare a timezone-aware and a timezone-naive timestamp; on such
      data [clean_data] and the date step of [filter_data] raise where
      the model returns.  Their properties are therefore stated about
      the calls that return.
    - A column has no dtype beyond what its cells show.  pandas chooses a
      comparison by dtype: a column of nulls only that has a numeric
      dtype cannot be compared with a timestamp, whereas the model lets
      every null compare false.
    - The scalar parsers behind [pd.to_numeric] and [pd.to_datetime]
      (with [errors="coerce"]) belong to pandas; they are parameters of
      the development.
    - Exceptions are values: every function that can raise returns
      [result], the sum of an exception and a value. *)

From Stdlib Require Import QArith Qcanon.
From stdpp Require Import base numbers strings list list_numbers gmap sorting.

Local Open Scope string_scope.
Local Open Scope Z_scope.

(** ** Cells, rows, frames *)

Inductive Cell : Type :=
  | NA
  | Str (s : string)
  | Num (q : Qc)
  | Time (ns : Z).

Global Instance Cell_eq_dec : EqDecision Cell.
Proof. solve_decision. Defined.

Global Instance Cell_inhabited : Inhabited Cell := populate NA.

Abbreviation Row := (gmap string Cell).

Record DataFrame : Type := mkFrame {
  columns : list string;
  rows : list Row
}.

Inductive Exn : Type :=
  | KeyError (c : string)
  | TypeError
  | ValueError.

Definition result (A : Type) : Type := (Exn + A)%type.

Definition ok {A} (a : A) : result A := inr a.
Definition raise {A} (e : Exn) : result A := inl e.

Definition bind {A B} (m : result A) (k : A → result B) : result B :=
  match m with
  | inl e => inl e
  | inr a => k a
  end.

Notation "'do' x <- m ; k" := (bind m (fun x => k))
  (at level 10, x name, m at level 100, k at level 200).

(** Apply a fallible scalar operation along a series; the first failure
    is the failure of the whole. *)
Fixpoint traverse {A B} (f : A → result B) (l : list A) : result (list B) :=
  match l with
  | [] => ok []
  | a :: l' => do b <- f a; do bs <- traverse f l'; ok (b :: bs)
  end.

(** The value a row holds under a column; a row that lacks the key reads
    as null. *)
Definition cell (c : string) (r : Row) : Cell := default NA (r !! c).

Definition has_col (df : DataFrame) (c : string) : bool :=
  bool_decide (c ∈ columns df).

(** [len(df)] *)
Definition len (df : DataFrame) : nat := length (rows df).

(** The values of a column, without the presence check. *)
Definition series (df : DataFrame) (c : string) : list Cell :=
  cell c <$> rows df.

(** [df[c]] *)
Definition get_column (df : DataFrame) (c : string) : result (list Cell) :=
  if has_col df c then ok (series df c) else raise (KeyError c).

(** [df[c] = values], the values being computed row by row: an existing
    column is overwritten in place, a new one is appended. *)
Definition set_column (df : DataFrame) (c : string) (f : Row → Cell)
    : DataFrame :=
  {| columns := if has_col df c then columns df else columns df ++ [c];
     rows := (λ r, <[c := f r]> r) <$> rows df |}.

(** Boolean indexing: the rows whose mask entry is [True], in order. *)
Fixpoint mask_rows (mask : list bool) (l : list Row) : list Row :=
  match mask, l with
  | b :: mask', r :: l' =>
      if b then r :: mask_rows mask' l' else mask_rows mask' l'
  | _, _ => []
  end.

(** [df[mask]] *)
Definition select (df : DataFrame) (mask : list bool) : DataFrame :=
  {| columns := columns df; rows := mask_rows mask (rows df) |}.

(** Column names of the ticket table. *)
Definition RATING : string := "Customer Satisfaction Rating".
Definition PURCHASE : string := "Date of Purchase".
Definition FIRST_RESPONSE : string := "First Response Time".
Definition RESOLUTION : string := "Time to Resolution".
Definition RESOLUTION_TS : string := "Time to Resolution Timestamp".
Definition PRIORITY : string := "Ticket Priority".
Definition CHANNEL : string := "Ticket Channel".
Definition STATUS : string := "Ticket Status".
Definition PRODUCT : string := "Product Purchased".

(** ** Scalar operations of pandas *)

(** [NaT - x], [x - NaT] are [NaT]; otherwise the difference in
    nanoseconds. *)
Definition timedelta (a b : Cell) : option Z :=
  match a, b with
  | Time x, Time y => Some (x - y)
  | _, _ => None
  end.

(** [.dt.total_seconds()] of a nanosecond difference. *)
Definition total_seconds (d : Z) : Qc := Q2Qc (d # 1000000000).

(** [.dt.total_seconds() / 3600] on one entry; a null difference stays
    null. *)
Definition hours (d : option Z) : Cell :=
  match d with
  | Some d => Num (total_seconds d / Q2Qc 3600)%Qc
  | None => NA
  end.

(** One entry of the mask [series <= 0]: a null compares false. *)
Definition le_zero (c : Cell) : bool :=
  match c with
  | Num q => bool_decide (q ≤ 0)%Qc
  | _ => false
  end.

(** [series.notna()] on one entry. *)
Definition notna (c : Cell) : Prop := c ≠ NA.

Global Instance notna_dec c : Decision (notna c).
Proof. unfold notna. apply _. Defined.

(** ** The cleaner *)

Section Cleaner.

(** The scalar parser of [pd.to_numeric]; [None] is a value that does
    not parse. *)
Variable parse_numeric : Cell → option Qc.

(** The scalar parser of [pd.to_datetime].  The first argument is the
    whole column: pandas infers one format from it and parses every
    entry with that format. *)
Variable parse_datetime : list Cell → Cell → option Z.

(** [pd.to_numeric(_, errors="coerce")] on one entry. *)
Definition to_numeric (c : Cell) : Cell :=
  match c with
  | NA => NA
  | Num q => Num q
  | _ => match parse_numeric c with
         | Some q => Num q
         | None => NA
         end
  end.

(** [pd.to_datetime(col, errors="coerce")] on one entry of [col]. *)
Definition to_datetime (col : list Cell) (c : Cell) : Cell :=
  match c with
  | NA => NA
  | Time t => Time t
  | _ => match parse_datetime col c with
         | Some t => Time t
         | None => NA
         end
  end.

(** [df[c] = pd.to_datetime(df[c], errors="coerce")], guarded by the
    presence of [c]. *)
Definition parse_dates (df : DataFrame) (c : string) : DataFrame :=
  if has_col df c
  then set_column df c (λ r, to_datetime (series df c) (cell c r))
  else df.

Definition clean_data (df : DataFrame) : result DataFrame :=
  do rating <- get_column df RATING;
  let df1 := set_column df RATING (λ r, to_numeric (cell RATING r)) in
  let df2 := parse_dates df1 PURCHASE in
  let df3 := parse_dates df2 FIRST_RESPONSE in
  if has_col df3 RESOLUTION then
    let df4 :=
      set_column df3 RESOLUTION_TS
        (λ r, to_datetime (series df3 RESOLUTION) (cell RESOLUTION r)) in
    if has_col df4 FIRST_RESPONSE then
      let df5 :=
        set_column df4 RESOLUTION
          (λ r, hours (timedelta (cell RESOLUTION_TS r)
                         (cell FIRST_RESPONSE r))) in
      ok (set_column df5 RESOLUTION
            (λ r, if le_zero (cell RESOLUTION r) then NA
                  else cell RESOLUTION r))
    else
      ok (set_column df4 RESOLUTION (λ _, NA))
  else ok df3.

(** Vocabulary for the properties of the cleaner. *)

(** What [pd.to_datetime] makes of the raw resolution entry of a row. *)
Definition resolution_ts (df : DataFrame) (r : Row) : Cell :=
  to_datetime (series df RESOLUTION) (cell RESOLUTION r).

(** What [pd.to_datetime] makes of the first-response entry of a row. *)
Definition first_response_ts (df : DataFrame) (r : Row) : Cell :=
  to_datetime (series df FIRST_RESPONSE) (cell FIRST_RESPONSE r).

(** The derived duration of a row: the hours between the two parsed
    timestamps, nulled when not positive. *)
Definition duration (df : DataFrame) (r : Row) : Cell :=
  let h := hours (timedelta (resolution_ts df r) (first_response_ts df r)) in
  if le_zero h then NA else h.

End Cleaner.

(** ** Sorting

    [sort_values] and [value_counts] order small frames stably; the model
    is a stable insertion sort, so rows that tie keep their order. *)

Section StableSort.
Context {A : Type} (R : relation A) `{!RelDecision R}.

Fixpoint insert_by (x : A) (l : list A) : list A :=
  match l with
  | [] => [x]
  | y :: l' => if decide (R x y) then x :: y :: l' else y :: insert_by x l'
  end.

Definition stable_sort (l : list A) : list A := foldr insert_by [] l.
End StableSort.

(** ** The filter engine *)

(** One entry of [series >= Timestamp] or [series <= Timestamp] on a
    column of timestamps: [NaT] compares false, and a string or a number
    against a timestamp is a [TypeError].  pandas decides by the dtype of
    the column, which the cells do not record: a column of nulls only
    raises [TypeError] too when its dtype is numeric. *)
Definition compare_time (op : Z → Z → bool) (bound : Z) (c : Cell)
    : result bool :=
  match c with
  | Time t => ok (op t bound)
  | NA => ok false
  | _ => raise TypeError
  end.

Definition compare_column (df : DataFrame) (c : string)
    (op : Z → Z → bool) (bound : Z) : result (list bool) :=
  do col <- get_column df c;
  traverse (compare_time op bound) col.

(** [series.isin(values)] *)
Definition isin (values : list Cell) (col : list Cell) : list bool :=
  (λ c, bool_decide (c ∈ values)) <$> col.

(** One allow-list step:
    [if values and len(values) > 0: df = df[df[c].isin(values)]] *)
Definition allow_filter (df : DataFrame) (c : string)
    (values : option (list Cell)) : result DataFrame :=
  match values with
  | Some (v :: vs) =>
      do col <- get_column df c;
      ok (select df (isin (v :: vs) col))
  | _ => ok df
  end.

(** The date step:
    [if date_range and "Date of Purchase" in df.columns: ...] *)
Definition date_filter (df : DataFrame) (date_range : option (Z * Z))
    : result DataFrame :=
  match date_range with
  | Some (start_date, end_date) =>
      if has_col df PURCHASE then
        do ge <- compare_column df PURCHASE Z.geb start_date;
        do le <- compare_column df PURCHASE Z.leb end_date;
        ok (select df (zip_with andb ge le))
      else ok df
  | None => ok df
  end.

Definition filter_data (df : DataFrame) (date_range : option (Z * Z))
    (priorities channels statuses products : option (list Cell))
    : result DataFrame :=
  do df1 <- date_filter df date_range;
  do df2 <- allow_filter df1 PRIORITY priorities;
  do df3 <- allow_filter df2 CHANNEL channels;
  do df4 <- allow_filter df3 STATUS statuses;
  allow_filter df4 PRODUCT products.

(** Vocabulary for the properties of the filter engine. *)

(** An allow-list that is omitted or empty. *)
Definition unconstrained (values : option (list Cell)) : Prop :=
  values = None ∨ values = Some [].

(** A purchase date inside the closed range; a null date is outside. *)
Definition in_date_range (start_date end_date : Z) (r : Row) : Prop :=
  match cell PURCHASE r with
  | Time t => start_date ≤ t ≤ end_date
  | _ => False
  end.

Global Instance in_date_range_dec s e r : Decision (in_date_range s e r).
Proof. unfold in_date_range. destruct (cell PURCHASE r); apply _. Defined.

(** A series as [pd.to_datetime] leaves it: timestamps and nulls. *)
Definition datetime_series (col : list Cell) : Prop :=
  Forall (λ c, c = NA ∨ ∃ t, c = Time t) col.

(** The mask entry that [compare_time] computes when it does not raise. *)
Definition time_mask (op : Z → Z → bool) (bound : Z) (c : Cell) : bool :=
  match c with
  | Time t => op t bound
  | _ => false
  end.

(** ** The aggregator *)

(** The numeric reading of an entry.  Reductions are modelled on numeric
    series: an entry that is a string is a [TypeError], and so is, in the
    model, a timestamp, although pandas can average timestamps. *)
Definition numeric (c : Cell) : result (option Qc) :=
  match c with
  | NA => ok None
  | Num q => ok (Some q)
  | _ => raise TypeError
  end.

Definition Qc_sum (l : list Qc) : Qc := foldr Qcplus 0%Qc l.

Definition Qc_of_nat (n : nat) : Qc := Q2Qc (inject_Z (Z.of_nat n)).

(** [series.mean()]: nulls are skipped, and the mean of nothing is null. *)
Definition mean (col : list Cell) : result Cell :=
  do vs <- traverse numeric col;
  match omap id vs with
  | [] => ok NA
  | x :: xs => ok (Num (Qc_sum (x :: xs) / Qc_of_nat (length (x :: xs)))%Qc)
  end.

(** [series.count()]: the number of non-null entries. *)
Definition count (col : list Cell) : nat := length (filter notna col).

Record KPIs : Type := mkKPIs {
  total_tickets : nat;
  avg_satisfaction : Cell;
  avg_resolution_time : Cell;
  open_tickets : nat;
  closed_tickets : nat
}.

(** [len(df[df["Ticket Status"] == s])
     if s in df["Ticket Status"].values else 0] *)
Definition count_status (df : DataFrame) (s : string) : result nat :=
  do values <- get_column df STATUS;
  if bool_decide (Str s ∈ values) then
    do col <- get_column df STATUS;
    ok (len (select df ((λ c, bool_decide (c = Str s)) <$> col)))
  else ok 0%nat.

Definition calculate_kpis (df : DataFrame) : result KPIs :=
  let total := len df in
  do sat <- (do col <- get_column df RATING; mean col);
  do res <- (do col <- get_column df RESOLUTION; mean col);
  do n_open <- count_status df "Open";
  do n_closed <- count_status df "Closed";
  ok {| total_tickets := total;
        avg_satisfaction := sat;
        avg_resolution_time := res;
        open_tickets := n_open;
        closed_tickets := n_closed |}.

(** A grouped result: its column names and its rows, the fields of a row
    in the order of the names. *)
Record Summary (A : Type) : Type := mkSummary {
  headers : list string;
  entries : list A
}.
Arguments mkSummary {A} _ _.
Arguments headers {A} _.
Arguments entries {A} _.

(** [pd.DataFrame()] *)
Definition empty_summary {A} : Summary A := mkSummary [] [].

(** The distinct values of a series, in order of first appearance; null
    is a value like any other ([dropna=False]). *)
Fixpoint distinct (l : list Cell) : list Cell :=
  match l with
  | [] => []
  | x :: l' => x :: filter (λ y, y ≠ x) (distinct l')
  end.

(** The order in which [groupby] (with its default [sort=True]) lists the
    group keys: ascending, null last.  Keys of different types do not
    occur in one column of a cleaned table; the model orders numbers
    before strings before timestamps. *)
Definition key_le (a b : Cell) : Prop :=
  match a, b with
  | _, NA => True
  | NA, _ => False
  | Num x, Num y => (x ≤ y)%Qc
  | Num _, _ => True
  | Str _, Num _ => False
  | Str x, Str y => String.leb x y = true
  | Str _, Time _ => True
  | Time x, Time y => x ≤ y
  | Time _, _ => False
  end.

Global Instance key_le_dec : RelDecision key_le.
Proof. intros [] []; simpl; apply _. Defined.

(** One row of [get_satisfaction_by_group]. *)
Record SatisfactionRow : Type := mkSat {
  sat_group : Cell;
  sat_mean : Cell;
  sat_count : nat
}.

(** [sort_values("mean", ascending=False)]: [a] may precede [b] when the
    mean of [a] is at least the mean of [b]; a null mean goes last. *)
Definition mean_desc (a b : SatisfactionRow) : Prop :=
  match sat_mean b with
  | Num y => match sat_mean a with
             | Num x => (y ≤ x)%Qc
             | _ => False
             end
  | _ => True
  end.

Global Instance mean_desc_dec : RelDecision mean_desc.
Proof.
  intros a b. unfold mean_desc.
  destruct (sat_mean b); [apply _ | apply _ | | apply _].
  destruct (sat_mean a); apply _.
Defined.

(** The names of the two columns of [.agg(["mean", "count"])]. *)
Definition agg_names : list string := ["mean"; "count"].

(** [.reset_index()] moves the index, which carries the name of the
    group column, in front of the columns [names] of the result; pandas
    refuses with [ValueError] ("cannot insert ..., already exists") when
    one of them has that name already. *)
Definition reset_index (name : string) (names : list string) : result unit :=
  if bool_decide (name ∈ names) then raise ValueError else ok tt.

(** [.groupby(c, dropna=False)[RATING].agg(["mean", "count"])] on one
    group. *)
Definition aggregate (valid : list Row) (c : string) (k : Cell)
    : result SatisfactionRow :=
  let members := filter (λ r, cell c r = k) valid in
  let ratings := cell RATING <$> members in
  do m <- mean ratings;
  ok {| sat_group := k; sat_mean := m; sat_count := count ratings |}.

Definition get_satisfaction_by_group (df : DataFrame) (group_column : string)
    : result (Summary SatisfactionRow) :=
  do col <- get_column df RATING;
  let df_valid := select df ((λ c, bool_decide (notna c)) <$> col) in
  if bool_decide (len df_valid = 0%nat) then ok empty_summary
  else
    do keys <- get_column df_valid group_column;
    do grouped <- traverse (aggregate (rows df_valid) group_column)
                    (stable_sort key_le (distinct keys));
    do inserted <- reset_index group_column agg_names;
    ok (mkSummary [group_column; "Average Satisfaction"; "Count"]
          (stable_sort mean_desc grouped)).

(** One row of [get_volume_by_group]. *)
Record VolumeRow : Type := mkVol {
  vol_group : Cell;
  vol_count : nat
}.

(** [value_counts] orders by descending frequency. *)
Definition count_desc (a b : VolumeRow) : Prop :=
  (vol_count b ≤ vol_count a)%nat.

Global Instance count_desc_dec : RelDecision count_desc.
Proof. intros a b; unfold count_desc; apply _. Defined.

(** [series.value_counts(dropna=False)] *)
Definition value_counts (col : list Cell) : list VolumeRow :=
  stable_sort count_desc
    ((λ k, {| vol_group := k;
              vol_count := length (filter (λ c, c = k) col) |})
       <$> distinct col).

(** The series of [value_counts] has its index named after the column
    and is itself named ["count"] (pandas 2), so that [.reset_index()]
    has that one name to collide with. *)
Definition get_volume_by_group (df : DataFrame) (group_column : string)
    : result (Summary VolumeRow) :=
  do col <- get_column df group_column;
  do inserted <- reset_index group_column ["count"];
  ok (mkSummary [group_column; "Count"] (value_counts col)).

(** Vocabulary for the properties of the aggregator. *)

(** A series as [pd.to_numeric] leaves it: numbers and nulls. *)
Definition numeric_series (col : list Cell) : Prop :=
  Forall (λ c, c = NA ∨ ∃ q, c = Num q) col.

(** The rows with a satisfaction rating. *)
Definition rated_rows (df : DataFrame) : list Row :=
  filter (λ r, notna (cell RATING r)) (rows df).

(** The number an entry holds. *)
Definition rating_value (c : Cell) : Qc :=
  match c with
  | Num q => q
  | _ => 0%Qc
  end.

(** The rows of a group. *)
Definition group_members (l : list Row) (c : string) (k : Cell) : list Row :=
  filter (λ r, cell c r = k) l.

(** The arithmetic mean of the ratings of a group. *)
Definition group_mean (l : list Row) (c : string) (k : Cell) : Qc :=
  (Qc_sum (rating_value <$> (cell RATING <$> group_members l c k))
   / Qc_of_nat (length (group_members l c k)))%Qc.

(** The row that aggregation gives the group of key [k]. *)
Definition group_row (l : list Row) (c : string) (k : Cell)
    : SatisfactionRow :=
  {| sat_group := k;
     sat_mean := Num (group_mean l c k);
     sat_count := length (group_members l c k) |}.

(** ** Further vocabulary: the filter engine as one predicate *)

(** The constraint that one allow-list puts on a row: none when the list
    is omitted or empty. *)
Definition allowed (values : option (list Cell)) (c : string) (r : Row)
    : Prop :=
  match values with
  | Some (v :: vs) => cell c r ∈ v :: vs
  | _ => True
  end.

Global Instance allowed_dec values c r : Decision (allowed values c r).
Proof. destruct values as [[|v vs]|]; simpl; apply _. Defined.

(** The constraint of the date step: none without a range or without the
    purchase-date column. *)
Definition dated (df : DataFrame) (date_range : option (Z * Z)) (r : Row)
    : Prop :=
  match date_range with
  | Some (start_date, end_date) =>
      if has_col df PURCHASE then in_date_range start_date end_date r
      else True
  | None => True
  end.

Global Instance dated_dec df date_range r : Decision (dated df date_range r).
Proof.
  destruct date_range as [[s e]|]; simpl; [|apply _].
  destruct (has_col df PURCHASE); apply _.
Defined.

(** The conjunction of the five constraints. *)
Definition passes (df : DataFrame) (date_range : option (Z * Z))
    (priorities channels statuses products : option (list Cell))
    (r : Row) : Prop :=
  dated df date_range r
  ∧ allowed priorities PRIORITY r ∧ allowed channels CHANNEL r
  ∧ allowed statuses STATUS r ∧ allowed products PRODUCT r.

Global Instance passes_dec df dr p c s pr r :
  Decision (passes df dr p c s pr r).
Proof. unfold passes. apply _. Defined.

(** A non-empty allow-list reads its column. *)
Definition needs (df : DataFrame) (c : string)
    (values : option (list Cell)) : Prop :=
  match values with
  | Some (_ :: _) => has_col df c = true
  | _ => True
  end.

(** The date step compares the purchase dates only when it is active; in
    the model the comparison is defined on timestamps and nulls. *)
Definition date_ready (df : DataFrame) (date_range : option (Z * Z)) : Prop :=
  match date_range with
  | Some _ =>
      has_col df PURCHASE = true → datetime_series (series df PURCHASE)
  | None => True
  end.

(** The column that an active allow-list reads and the table lacks. *)
Definition missing (df : DataFrame) (c : string)
    (values : option (list Cell)) : option string :=
  match values with
  | Some (_ :: _) => if has_col df c then None else Some c
  | _ => None
  end.

(** The missing columns of the four allow-lists, in the order of the
    steps. *)
Definition missing_columns (df : DataFrame)
    (priorities channels statuses products : option (list Cell))
    : list string :=
  omap id [missing df PRIORITY priorities; missing df CHANNEL channels;
           missing df STATUS statuses; missing df PRODUCT products].

(** ** Further vocabulary: averages *)

(** The number an entry holds, if it holds one. *)
Definition number (c : Cell) : option Qc :=
  match c with
  | Num q => Some q
  | _ => None
  end.

(** The numbers of a series, nulls skipped. *)
Definition numbers (col : list Cell) : list Qc := omap number col.

(** The arithmetic mean of some numbers; null when there are none. *)
Definition average (xs : list Qc) : Cell :=
  match xs with
  | [] => NA
  | _ :: _ => Num (Qc_sum xs / Qc_of_nat (length xs))%Qc
  end.

(** A cell that is null or a number above zero. *)
Definition null_or_positive (c : Cell) : Prop :=
  c = NA ∨ ∃ q, c = Num q ∧ (0 < q)%Qc.

(** ** Further vocabulary: the cleaner *)

(** The columns that [clean_data] writes. *)
Definition cleaned_columns : list string :=
  [RATING; PURCHASE; FIRST_RESPONSE; RESOLUTION; RESOLUTION_TS].

(** The column names of the output of [clean_data]: the timestamp column
    is appended when the table has a resolution column and not yet a
    timestamp column. *)
Definition clean_columns (df : DataFrame) : list string :=
  if has_col df RESOLUTION && negb (has_col df RESOLUTION_TS)
  then columns df ++ [RESOLUTION_TS]
  else columns df.

(** ** Resolution time by group *)

(** One entry of the mask [series > 0]: a null compares false, and a
    string or a timestamp against a number is a [TypeError]. *)
Definition gt_zero (c : Cell) : result bool :=
  match c with
  | Num q => ok (bool_decide (0 < q)%Qc)
  | NA => ok false
  | _ => raise TypeError
  end.

(** One row of [get_resolution_by_group]. *)
Record ResolutionRow : Type := mkRes {
  res_group : Cell;
  res_mean : Cell;
  res_count : nat
}.

(** [sort_values("mean", ascending=True)]: [a] may precede [b] when the
    mean of [a] is at most the mean of [b]; a null mean goes last. *)
Definition mean_asc (a b : ResolutionRow) : Prop :=
  match res_mean a, res_mean b with
  | Num x, Num y => (x ≤ y)%Qc
  | Num _, _ => True
  | _, Num _ => False
  | _, _ => True
  end.

Global Instance mean_asc_dec : RelDecision mean_asc.
Proof.
  intros a b. unfold mean_asc.
  destruct (res_mean a), (res_mean b); apply _.
Defined.

(** [.groupby(c, dropna=False)[RESOLUTION].agg(["mean", "count"])] on one
    group. *)
Definition aggregate_resolution (valid : list Row) (c : string) (k : Cell)
    : result ResolutionRow :=
  let members := filter (λ r, cell c r = k) valid in
  let durations := cell RESOLUTION <$> members in
  do m <- mean durations;
  ok {| res_group := k; res_mean := m; res_count := count durations |}.

Definition get_resolution_by_group (df : DataFrame) (group_column : string)
    : result (Summary ResolutionRow) :=
  do col <- get_column df RESOLUTION;
  let present := (λ c, bool_decide (notna c)) <$> col in
  do positive <- (do col <- get_column df RESOLUTION; traverse gt_zero col);
  let df_valid := select df (zip_with andb present positive) in
  if bool_decide (len df_valid = 0%nat) then ok empty_summary
  else
    do keys <- get_column df_valid group_column;
    do grouped <- traverse (aggregate_resolution (rows df_valid) group_column)
                    (stable_sort key_le (distinct keys));
    do inserted <- reset_index group_column agg_names;
    ok (mkSummary [group_column; "Average Resolution Time"; "Count"]
          (stable_sort mean_asc grouped)).

(** A duration that counts: a number above zero. *)
Definition is_positive (c : Cell) : Prop :=
  match c with
  | Num q => (0 < q)%Qc
  | _ => False
  end.

Global Instance is_positive_dec c : Decision (is_positive c).
Proof. destruct c; simpl; apply _. Defined.

(** The rows with a positive resolution duration. *)
Definition resolved_rows (df : DataFrame) : list Row :=
  filter (λ r, is_positive (cell RESOLUTION r)) (rows df).

(** The arithmetic mean of the durations of a group. *)
Definition duration_mean (l : list Row) (c : string) (k : Cell) : Qc :=
  (Qc_sum (rating_value <$> (cell RESOLUTION <$> group_members l c k))
   / Qc_of_nat (length (group_members l c k)))%Qc.

(** The row that aggregation gives the group of key [k]. *)
Definition duration_row (l : list Row) (c : string) (k : Cell)
    : ResolutionRow :=
  {| res_group := k;
     res_mean := Num (duration_mean l c k);
     res_count := length (group_members l c k) |}.

(** ** The option lists of the sidebar (app.py) *)

(** [df[c].dropna().unique().tolist()]: the distinct non-null values of a
    column, in order of first appearance. *)
Definition options (df : DataFrame) (c : string) : result (list Cell) :=
  do col <- get_column df c;
  ok (distinct (filter notna col)).

(** A row is kept when every option of a column is selected: its entry
    is not null, or the column has no option at all. *)
Definition known (df : DataFrame) (c : string) (r : Row) : Prop :=
  cell c r ≠ NA ∨ Forall (λ x, x = NA) (series df c).

Global Instance known_dec df c r : Decision (known df c r).
Proof. unfold known. apply _. Defined.

(** ** Sample data *)

Module Sample.

(** Parsers for the samples: no string parses, and a number read as a
    timestamp is its numerator in nanoseconds. *)
Definition parse_numeric (c : Cell) : option Qc := None.

Definition parse_datetime (col : list Cell) (c : Cell) : option Z :=
  match c with
  | Num q => Some (Qnum (this q))
  | _ => None
  end.

Definition hour : Z := 3600000000000.

Definition stars (n : Z) : Cell := Num (Q2Qc (inject_Z n)).

Definition ticket (rating first resolution : Cell)
    (priority status : string) : Row :=
  {[ RATING := rating; FIRST_RESPONSE := first; RESOLUTION := resolution;
     PRIORITY := Str priority; STATUS := Str status ]}.

Definition raw : DataFrame :=
  {| columns := [RATING; FIRST_RESPONSE; RESOLUTION; PRIORITY; STATUS];
     rows :=
       [ ticket (stars 5) (Time (10 * hour)) (Time (12 * hour + hour / 2))
           "High" "Open";
         ticket (Str "n/a") (Time (10 * hour)) (Time (9 * hour))
           "High" "Closed";
         ticket (stars 4) (Str "soon") (Time (9 * hour)) "Low" "open";
         ticket NA (Time (7 * hour)) (Time (7 * hour)) "Low" "Open" ] |}.

(** A table without the satisfaction column. *)
Definition no_rating : DataFrame :=
  {| columns := [FIRST_RESPONSE; RESOLUTION; PRIORITY];
     rows := [ {[ FIRST_RESPONSE := Time (10 * hour);
                  RESOLUTION := Time (11 * hour);
                  PRIORITY := Str "High" ]} ] |}.

(** A table without the priority column. *)
Definition no_priority : DataFrame :=
  {| columns := [RATING; STATUS];
     rows := [ {[ RATING := stars 3; STATUS := Str "Open" ]} ] |}.

Definition day : Z := 24 * hour.

(** A cleaned table: numeric ratings and durations, parsed dates. *)
Definition cleaned_ticket (rating purchase duration : Cell)
    (priority status : string) : Row :=
  {[ RATING := rating; PURCHASE := purchase; RESOLUTION := duration;
     PRIORITY := Str priority; STATUS := Str status ]}.

Definition cleaned : DataFrame :=
  {| columns := [RATING; PURCHASE; RESOLUTION; PRIORITY; STATUS];
     rows :=
       [ cleaned_ticket (stars 5) (Time (3 * day)) (stars 2) "High" "Open";
         cleaned_ticket (stars 3) NA NA "High" "Closed";
         cleaned_ticket (stars 4) (Time (9 * day)) (stars 6) "Low" "open";
         cleaned_ticket NA (Time (5 * day)) NA "Low" "Open" ] |}.

(** The same columns and no rows. *)
Definition no_rows : DataFrame :=
  {| columns := columns cleaned; rows := [] |}.

(** Three rated tickets: two of high priority, one of low priority. *)
Definition rated (rating : Z) (priority : string) : Row :=
  {[ RATING := stars rating; PRIORITY := Str priority ]}.

Definition three_ratings : DataFrame :=
  {| columns := [RATING; PRIORITY];
     rows := [ rated 5 "High"; rated 3 "High"; rated 4 "Low" ] |}.

(** Two rated tickets in a table whose other columns carry the names that
    pandas gives to aggregates. *)
Definition named_like_aggregates : DataFrame :=
  {| columns := [RATING; "mean"; "count"];
     rows := [ {[ RATING := stars 5; "mean" := Str "high";
                  "count" := Str "few" ]};
               {[ RATING := stars 3; "mean" := Str "low";
                  "count" := Str "few" ]} ] |}.

End Sample.

Module Demo.

(** Three tickets with the four categorical columns; the second has no
    priority. *)
Definition categorised (priority : Cell) (channel status product : string)
    : Row :=
  {[ PRIORITY := priority; CHANNEL := Str channel;
     STATUS := Str status; PRODUCT := Str product ]}.

Definition tickets : DataFrame :=
  {| columns := [PRIORITY; CHANNEL; STATUS; PRODUCT];
     rows := [ categorised (Str "High") "Email" "Open" "Router";
               categorised NA "Chat" "Closed" "Router";
               categorised (Str "Low") "Email" "Open" "Camera" ] |}.

End Demo.


(** * Properties *)

(** ** The error monad and series operations *)

Lemma bind_ok {A B} (m : result A) (k : A → result B) (b : B) :
  bind m k = ok b ↔ ∃ a, m = ok a ∧ k a = ok b.
Proof.
  destruct m as [e|a]; simpl; split.
  - discriminate.
  - intros (a & Ha & _). discriminate.
  - eauto.
  - intros (a' & [= <-] & Hk). exact Hk.
Qed.

Lemma get_column_ok df c col :
  get_column df c = ok col ↔ has_col df c = true ∧ col = series df c.
Proof.
  unfold get_column. destruct (has_col df c); split.
  - intros [= <-]. done.
  - intros [_ ->]. done.
  - discriminate.
  - intros [? _]. discriminate.
Qed.

Lemma get_column_present df c :
  has_col df c = true → get_column df c = ok (series df c).
Proof. intros H. unfold get_column. by rewrite H. Qed.

Lemma get_column_absent df c :
  has_col df c = false → get_column df c = raise (KeyError c).
Proof. intros H. unfold get_column. by rewrite H. Qed.

(** A traversal with a total operation is a map. *)
Lemma reset_index_ok name names :
  name ∉ names → reset_index name names = ok tt.
Proof. intros Hname. unfold reset_index. by rewrite bool_decide_eq_false_2. Qed.

Lemma not_elem_of_agg_names name :
  name ≠ "mean" → name ≠ "count" → name ∉ agg_names.
Proof.
  intros Hmean Hcount. unfold agg_names.
  rewrite !not_elem_of_cons. split_and!; [done|done|apply not_elem_of_nil].
Qed.

Lemma reset_index_raises name names :
  name ∈ names → reset_index name names = raise ValueError.
Proof. intros Hname. unfold reset_index. by rewrite bool_decide_eq_true_2. Qed.

Lemma traverse_total {A B} (f : A → result B) (g : A → B) (l : list A) :
  Forall (λ a, f a = ok (g a)) l → traverse f l = ok (g <$> l).
Proof.
  induction 1 as [|a l Ha _ IH]; simpl; [done|].
  by rewrite Ha, IH.
Qed.

(** A traversal that returns is the map of any function that agrees with
    the operation where the operation returns. *)
Lemma traverse_ok {A B} (f : A → result B) (g : A → B) (l : list A) bs :
  (∀ a b, f a = ok b → b = g a) →
  traverse f l = ok bs → bs = g <$> l.
Proof.
  intros Hfg. revert bs. induction l as [|a l IH]; simpl; intros bs.
  - by intros [= <-].
  - intros (b & Hb & (bs' & Hbs' & [= <-])%bind_ok)%bind_ok.
    by rewrite (Hfg _ _ Hb), (IH _ Hbs').
Qed.

Lemma mask_rows_fmap (h : Row → bool) (l : list Row) :
  mask_rows (h <$> l) l = filter (λ r, h r = true) l.
Proof.
  induction l as [|r l IH]; csimpl; [done|].
  rewrite filter_cons, IH. destruct (h r); by case_decide.
Qed.

Lemma zip_with_andb_fmap {A} (h1 h2 : A → bool) (l : list A) :
  zip_with andb (h1 <$> l) (h2 <$> l) = (λ a, h1 a && h2 a) <$> l.
Proof. induction l as [|a l IH]; csimpl; [done|]. by rewrite IH. Qed.

(** ** Rows and columns *)

Lemma cell_insert c v (r : Row) : cell c (<[c := v]> r) = v.
Proof. unfold cell. by rewrite lookup_insert_eq. Qed.

Lemma cell_insert_ne c c' v (r : Row) :
  c ≠ c' → cell c' (<[c := v]> r) = cell c' r.
Proof. intros H. unfold cell. by rewrite lookup_insert_ne. Qed.

Lemma has_col_true df c : has_col df c = true ↔ c ∈ columns df.
Proof. unfold has_col. apply bool_decide_eq_true. Qed.

Lemma columns_set_column_present df c f :
  has_col df c = true → columns (set_column df c f) = columns df.
Proof. intros H. unfold set_column; simpl. by rewrite H. Qed.

Lemma has_col_set_column df c f c' :
  has_col (set_column df c f) c' = has_col df c' || bool_decide (c' = c).
Proof.
  apply eq_true_iff_eq. rewrite orb_true_iff, bool_decide_eq_true.
  rewrite !has_col_true. unfold set_column; simpl.
  destruct (has_col df c) eqn:Hc.
  - apply has_col_true in Hc. split; [auto|]. intros [?| ->]; done.
  - rewrite elem_of_app, list_elem_of_singleton. done.
Qed.

Lemma series_set_column_ne df c f c' :
  c ≠ c' → series (set_column df c f) c' = series df c'.
Proof.
  intros H. unfold series, set_column; simpl.
  rewrite <- list_fmap_compose. apply list_fmap_ext.
  intros i r _. simpl. by apply cell_insert_ne.
Qed.

Lemma series_set_column df c f :
  series (set_column df c f) c = f <$> rows df.
Proof.
  unfold series, set_column; simpl.
  rewrite <- list_fmap_compose. apply list_fmap_ext.
  intros i r _. simpl. apply cell_insert.
Qed.

Lemma lookup_set_column df c f i r :
  rows df !! i = Some r →
  rows (set_column df c f) !! i = Some (<[c := f r]> r).
Proof. intros Hr. unfold set_column; simpl. by rewrite list_lookup_fmap, Hr. Qed.

(** ** Missing columns *)

(** C2, at the failing input: a table without the satisfaction column
    makes [clean_data] raise [KeyError], whatever the parsers; the three
    later steps are guarded by a presence test, this one is not. *)
Theorem clean_data_missing_rating_raises :
  ∀ parse_numeric parse_datetime,
    clean_data parse_numeric parse_datetime Sample.no_rating
    = raise (KeyError RATING).
Proof. intros. reflexivity. Qed.

(** C3, at the failing input: an active priority allow-list on a table
    without the priority column makes [filter_data] raise [KeyError]; only
    the date step tests for its column. *)
Theorem filter_data_missing_priority_raises :
  filter_data Sample.no_priority None (Some [Str "High"]) None None None
  = raise (KeyError PRIORITY).
Proof. reflexivity. Qed.

(** ** The filter engine *)

(** An active allow-list needs its column. *)
Lemma allow_filter_absent df c v vs :
  has_col df c = false →
  allow_filter df c (Some (v :: vs)) = raise (KeyError c).
Proof. intros Hc. simpl. by rewrite get_column_absent. Qed.

Lemma allow_filter_unconstrained df c values :
  unconstrained values → allow_filter df c values = ok df.
Proof. by intros [-> | ->]. Qed.

(** C5: with no date range and every allow-list omitted or empty,
    [filter_data] returns its input unchanged, row for row. *)
Theorem filter_data_no_constraint df priorities channels statuses products :
  unconstrained priorities → unconstrained channels →
  unconstrained statuses → unconstrained products →
  filter_data df None priorities channels statuses products = ok df.
Proof.
  intros Hp Hc Hs Hd. unfold filter_data; simpl.
  rewrite (allow_filter_unconstrained _ _ _ Hp); simpl.
  rewrite (allow_filter_unconstrained _ _ _ Hc); simpl.
  rewrite (allow_filter_unconstrained _ _ _ Hs); simpl.
  by apply allow_filter_unconstrained.
Qed.

Lemma filter_data_no_constraint_witness :
  filter_data Sample.raw None None (Some []) None (Some []) = ok Sample.raw.
Proof.
  apply filter_data_no_constraint; [by left | by right | by left | by right].
Defined.

Lemma compare_time_mask op bound c b :
  compare_time op bound c = ok b → b = time_mask op bound c.
Proof. destruct c; simpl; intros [= <-]; done. Qed.

Lemma compare_column_ok df c op bound mask :
  compare_column df c op bound = ok mask →
  mask = (λ r, time_mask op bound (cell c r)) <$> rows df.
Proof.
  unfold compare_column.
  intros (col & [_ ->]%get_column_ok & Hmask)%bind_ok.
  apply (traverse_ok _ _ _ _ (compare_time_mask op bound)) in Hmask.
  subst mask. unfold series. by rewrite <- list_fmap_compose.
Qed.

Lemma compare_column_datetime df c op bound :
  has_col df c = true → datetime_series (series df c) →
  compare_column df c op bound
  = ok ((λ r, time_mask op bound (cell c r)) <$> rows df).
Proof.
  intros Hc Hdt. unfold compare_column.
  rewrite get_column_present by done. simpl.
  rewrite (traverse_total _ (time_mask op bound)).
  - unfold series. by rewrite <- list_fmap_compose.
  - eapply Forall_impl; [exact Hdt|].
    intros c' [-> | [t ->]]; done.
Qed.

Lemma date_mask_in_range s e (l : list Row) :
  mask_rows (zip_with andb
               ((λ r, time_mask Z.geb s (cell PURCHASE r)) <$> l)
               ((λ r, time_mask Z.leb e (cell PURCHASE r)) <$> l)) l
  = filter (in_date_range s e) l.
Proof.
  rewrite zip_with_andb_fmap, mask_rows_fmap.
  apply list_filter_iff. intros r. unfold in_date_range, time_mask.
  destruct (cell PURCHASE r); simpl; try done.
  rewrite andb_true_iff, Z.geb_le, Z.leb_le. done.
Qed.

Lemma date_filter_inactive df date_range :
  date_range = None ∨ has_col df PURCHASE = false →
  date_filter df date_range = ok df.
Proof.
  intros [-> | H]; [done|].
  unfold date_filter. destruct date_range as [[s e]|]; by rewrite ?H.
Qed.

Lemma date_filter_active_ok df s e out :
  has_col df PURCHASE = true →
  date_filter df (Some (s, e)) = ok out →
  out = {| columns := columns df; rows := filter (in_date_range s e) (rows df) |}.
Proof.
  intros Hc. unfold date_filter. rewrite Hc.
  intros (ge & ->%compare_column_ok & Hle)%bind_ok.
  apply bind_ok in Hle as (le & ->%compare_column_ok & [= <-]).
  unfold select. by rewrite date_mask_in_range.
Qed.

(** C6: with the allow-lists out of the way, the date step decides the
    result.  Without a range, or without the purchase-date column, the
    table is returned as it is, null dates included.  With a range
    [(start, end)] and the column, a result of [filter_data] keeps exactly
    the rows whose purchase date [t] has [start <= t <= end], in order,
    so no row with a null date. *)
Theorem filter_data_date_range df date_range priorities channels statuses products :
  unconstrained priorities → unconstrained channels →
  unconstrained statuses → unconstrained products →
  (date_range = None ∨ has_col df PURCHASE = false →
     filter_data df date_range priorities channels statuses products = ok df)
  ∧ (∀ start_date end_date,
       date_range = Some (start_date, end_date) →
       has_col df PURCHASE = true →
       let kept := filter (in_date_range start_date end_date) (rows df) in
       (∀ out,
          filter_data df date_range priorities channels statuses products = ok out →
          out = {| columns := columns df; rows := kept |})
       ∧ Forall (λ r, cell PURCHASE r ≠ NA) kept).
Proof.
  intros Hp Hc Hs Hd.
  assert (Hrest : ∀ df1 : DataFrame,
    (do df2 <- allow_filter df1 PRIORITY priorities;
     do df3 <- allow_filter df2 CHANNEL channels;
     do df4 <- allow_filter df3 STATUS statuses;
     allow_filter df4 PRODUCT products) = ok df1).
  { intros df1.
    rewrite (allow_filter_unconstrained _ _ _ Hp); simpl.
    rewrite (allow_filter_unconstrained _ _ _ Hc); simpl.
    rewrite (allow_filter_unconstrained _ _ _ Hs); simpl.
    by apply allow_filter_unconstrained. }
  split.
  - intros Hoff. unfold filter_data.
    rewrite (date_filter_inactive _ _ Hoff). simpl. apply Hrest.
  - intros s e -> Hcol kept. split.
    + intros out. unfold filter_data.
      intros (df1 & Hdate & Hout)%bind_ok.
      rewrite Hrest in Hout. injection Hout as <-.
      by apply date_filter_active_ok.
    + apply Forall_forall. intros r [Hr _]%list_elem_of_filter.
      unfold in_date_range in Hr. intros Hna. by rewrite Hna in Hr.
Qed.

Lemma filter_data_date_range_witness :
  ∃ out,
    filter_data Sample.cleaned (Some (2 * Sample.day, 5 * Sample.day))
      None (Some []) None None = ok out
    ∧ out = {| columns := columns Sample.cleaned;
               rows := filter (in_date_range (2 * Sample.day) (5 * Sample.day))
                         (rows Sample.cleaned) |}
    ∧ length (rows out) = 2%nat.
Proof.
  destruct (filter_data Sample.cleaned (Some (2 * Sample.day, 5 * Sample.day))
              None (Some []) None None)
    as [e|out] eqn:Hout; [by vm_compute in Hout|].
  exists out. split; [done|].
  destruct (filter_data_date_range Sample.cleaned
              (Some (2 * Sample.day, 5 * Sample.day)) None (Some []) None None)
    as [_ H]; [by left | by right | by left | by left |].
  destruct (H _ _ eq_refl eq_refl) as (Hkept & _).
  rewrite (Hkept out Hout). split; [done|]. by vm_compute.
Defined.

(** ** Key performance indicators *)

Lemma filter_none {A} (P : A → Prop) `{!∀ x, Decision (P x)} (l : list A) :
  (∀ x, x ∈ l → ¬ P x) → filter P l = [].
Proof.
  induction l as [|a l IH]; intros Hno; [done|].
  rewrite filter_cons_False by (apply Hno; left).
  apply IH. intros x Hx. apply Hno. by right.
Qed.

Lemma count_status_ok df s n :
  count_status df s = ok n →
  n = length (filter (λ r, cell STATUS r = Str s) (rows df)).
Proof.
  unfold count_status.
  intros (values & [Hc ->]%get_column_ok & Hn)%bind_ok.
  case_bool_decide as Hin.
  - rewrite get_column_present in Hn by done. simpl in Hn.
    injection Hn as <-. unfold len, select, series; simpl.
    rewrite <- list_fmap_compose, mask_rows_fmap.
    f_equal. apply list_filter_iff. intros r; simpl.
    by rewrite bool_decide_eq_true.
  - injection Hn as <-. rewrite filter_none; [done|].
    intros r Hr Heq. apply Hin. unfold series.
    rewrite <- Heq. apply list_elem_of_fmap. eauto.
Qed.

Lemma count_status_no_rows df s :
  has_col df STATUS = true → rows df = [] → count_status df s = ok 0%nat.
Proof.
  intros Hc Hrows. unfold count_status.
  rewrite get_column_present by done. simpl.
  unfold series. rewrite Hrows. reflexivity.
Qed.

(** C7: on a table with its columns and no rows [calculate_kpis] returns
    zero tickets, null averages and zero open and closed tickets.  On any
    table on which it returns, the open and closed counts are the numbers
    of rows whose status is exactly the string ["Open"], respectively
    ["Closed"]. *)
Theorem calculate_kpis_no_rows_and_status df :
  (rows df = [] →
   has_col df RATING = true → has_col df RESOLUTION = true →
   has_col df STATUS = true →
   calculate_kpis df
   = ok {| total_tickets := 0; avg_satisfaction := NA;
           avg_resolution_time := NA; open_tickets := 0;
           closed_tickets := 0 |})
  ∧ (∀ k, calculate_kpis df = ok k →
       open_tickets k
       = length (filter (λ r, cell STATUS r = Str "Open") (rows df))
       ∧ closed_tickets k
         = length (filter (λ r, cell STATUS r = Str "Closed") (rows df))).
Proof.
  split.
  - intros Hrows Hsat Hres Hst. unfold calculate_kpis.
    rewrite !get_column_present by done. simpl.
    rewrite !count_status_no_rows by done.
    unfold mean, series, len. rewrite Hrows. reflexivity.
  - intros k. unfold calculate_kpis.
    intros (sat & _ & (res & _ & (n_open & Hopen &
              (n_closed & Hclosed & [= <-])%bind_ok)%bind_ok)%bind_ok)%bind_ok.
    simpl. split; by apply count_status_ok.
Qed.

Lemma calculate_kpis_no_rows_and_status_witness :
  calculate_kpis Sample.no_rows
  = ok {| total_tickets := 0; avg_satisfaction := NA;
          avg_resolution_time := NA; open_tickets := 0;
          closed_tickets := 0 |}
  ∧ ∃ k, calculate_kpis Sample.cleaned = ok k
         ∧ open_tickets k = 2%nat ∧ closed_tickets k = 1%nat.
Proof.
  split.
  - by apply (calculate_kpis_no_rows_and_status Sample.no_rows).
  - destruct (calculate_kpis Sample.cleaned) as [e|k] eqn:Hk;
      [by vm_compute in Hk|].
    exists k. split; [done|].
    destruct (proj2 (calculate_kpis_no_rows_and_status Sample.cleaned) k Hk)
      as [-> ->].
    by vm_compute.
Defined.

(** ** The cleaner *)

Ltac distinct_columns :=
  unfold RATING, PURCHASE, FIRST_RESPONSE, RESOLUTION, RESOLUTION_TS,
    PRIORITY, CHANNEL, STATUS, PRODUCT;
  discriminate.

Ltac cell_simpl :=
  repeat first
    [ rewrite cell_insert
    | rewrite cell_insert_ne by distinct_columns ].

Lemma total_seconds_hours (d : Z) :
  (total_seconds d / Q2Qc 3600)%Qc = Q2Qc (d # 3600000000000).
Proof.
  apply Qc_is_canon. unfold total_seconds. simpl.
  rewrite !Qred_correct. unfold Qeq, Qmult, Qinv; simpl. lia.
Qed.

Lemma hours_positive (d : Z) : (0 < Q2Qc (d # 3600000000000))%Qc ↔ 0 < d.
Proof.
  unfold Qclt. cbn [this Q2Qc]. rewrite !Qred_correct.
  unfold Qlt; simpl. lia.
Qed.

Lemma hours_nonpositive (d : Z) : (Q2Qc (d # 3600000000000) ≤ 0)%Qc ↔ d ≤ 0.
Proof.
  unfold Qcle. cbn [this Q2Qc]. rewrite !Qred_correct.
  unfold Qle; simpl. lia.
Qed.

Section CleanerProperties.

Variable parse_numeric : Cell → option Qc.
Variable parse_datetime : list Cell → Cell → option Z.


Lemma to_datetime_shape col c :
  to_datetime parse_datetime col c = NA
  ∨ ∃ t, to_datetime parse_datetime col c = Time t.
Proof.
  unfold to_datetime.
  destruct c; eauto; destruct (parse_datetime col _); eauto.
Qed.

Lemma columns_parse_dates df c : columns (parse_dates parse_datetime df c) = columns df.
Proof.
  unfold parse_dates. destruct (has_col df c) eqn:Hc; [|done].
  by apply columns_set_column_present.
Qed.

Lemma has_col_parse_dates df c c' :
  has_col (parse_dates parse_datetime df c) c' = has_col df c'.
Proof. unfold has_col. by rewrite columns_parse_dates. Qed.

Lemma series_parse_dates_ne df c c' :
  c ≠ c' → series (parse_dates parse_datetime df c) c' = series df c'.
Proof.
  intros Hne. unfold parse_dates. destruct (has_col df c); [|done].
  by apply series_set_column_ne.
Qed.

Lemma rows_parse_dates df c :
  rows (parse_dates parse_datetime df c)
  = (λ r, if has_col df c
          then <[c := to_datetime parse_datetime (series df c) (cell c r)]> r
          else r) <$> rows df.
Proof.
  unfold parse_dates. destruct (has_col df c); [done|].
  by rewrite list_fmap_id.
Qed.

Lemma lookup_parse_dates df c i r :
  rows df !! i = Some r →
  rows (parse_dates parse_datetime df c) !! i
  = Some (if has_col df c
          then <[c := to_datetime parse_datetime (series df c) (cell c r)]> r
          else r).
Proof. intros Hr. by rewrite rows_parse_dates, list_lookup_fmap, Hr. Qed.

Lemma duration_positive df r t f :
  resolution_ts parse_datetime df r = Time t →
  first_response_ts parse_datetime df r = Time f → f < t →
  duration parse_datetime df r = Num (Q2Qc ((t - f) # 3600000000000)).
Proof.
  intros Ht Hf Hlt. unfold duration. rewrite Ht, Hf. simpl.
  rewrite total_seconds_hours.
  rewrite bool_decide_eq_false_2; [done|].
  rewrite hours_nonpositive. lia.
Qed.

Lemma duration_nonpositive df r t f :
  resolution_ts parse_datetime df r = Time t →
  first_response_ts parse_datetime df r = Time f → t ≤ f →
  duration parse_datetime df r = NA.
Proof.
  intros Ht Hf Hle. unfold duration. rewrite Ht, Hf. simpl.
  rewrite total_seconds_hours.
  rewrite bool_decide_eq_true_2; [done|].
  rewrite hours_nonpositive. lia.
Qed.

Lemma duration_no_first_response df r :
  first_response_ts parse_datetime df r = NA → duration parse_datetime df r = NA.
Proof.
  intros Hf. unfold duration. rewrite Hf.
  by destruct (resolution_ts _ df r).
Qed.

Lemma duration_shape df r :
  duration parse_datetime df r = NA
  ∨ ∃ q, duration parse_datetime df r = Num q ∧ (0 < q)%Qc.
Proof.
  destruct (to_datetime_shape (series df FIRST_RESPONSE) (cell FIRST_RESPONSE r))
    as [Hf | [f Hf]].
  { left. by apply duration_no_first_response. }
  destruct (to_datetime_shape (series df RESOLUTION) (cell RESOLUTION r))
    as [Ht | [t Ht]].
  { left. unfold duration, resolution_ts. by rewrite Ht. }
  destruct (decide (f < t)) as [Hlt | Hge].
  - right. eexists. split; [by eapply duration_positive|].
    apply hours_positive. lia.
  - left. eapply duration_nonpositive; [done..|lia].
Qed.

(** The effect of [clean_data] on a table that has the raw resolution
    and first-response columns: the column names, and row by row the
    parsed timestamps and the derived duration. *)
Lemma clean_data_resolution df out :
  has_col df RESOLUTION = true → has_col df FIRST_RESPONSE = true →
  clean_data parse_numeric parse_datetime df = ok out →
  columns out
  = (if has_col df RESOLUTION_TS then columns df
     else (columns df ++ [RESOLUTION_TS])%list)
  ∧ length (rows out) = length (rows df)
  ∧ ∀ i r, rows df !! i = Some r →
      ∃ r', rows out !! i = Some r'
            ∧ cell RESOLUTION_TS r' = resolution_ts parse_datetime df r
            ∧ cell FIRST_RESPONSE r' = first_response_ts parse_datetime df r
            ∧ cell RESOLUTION r' = duration parse_datetime df r.
Proof.
  intros Hres Hfirst. unfold clean_data.
  intros (rating & [Hrating _]%get_column_ok & Hout)%bind_ok.
  set (df1 := set_column df RATING
                (λ r, to_numeric parse_numeric (cell RATING r))) in *.
  set (df2 := parse_dates parse_datetime df1 PURCHASE) in *.
  set (df3 := parse_dates parse_datetime df2 FIRST_RESPONSE) in *.
  assert (Hcols1 : columns df1 = columns df)
    by (by apply columns_set_column_present).
  assert (Hcol3 : ∀ c, has_col df3 c = has_col df c).
  { intros c. subst df3 df2. rewrite !has_col_parse_dates.
    unfold has_col. by rewrite Hcols1. }
  assert (Hcols3 : columns df3 = columns df).
  { subst df3 df2. by rewrite !columns_parse_dates. }
  assert (Hser3 : series df3 RESOLUTION = series df RESOLUTION).
  { subst df3 df2 df1.
    rewrite !series_parse_dates_ne by distinct_columns.
    by rewrite series_set_column_ne by distinct_columns. }
  assert (Hser2 : series df2 FIRST_RESPONSE = series df FIRST_RESPONSE).
  { subst df2 df1.
    rewrite series_parse_dates_ne by distinct_columns.
    by rewrite series_set_column_ne by distinct_columns. }
  assert (Hfirst2 : has_col df2 FIRST_RESPONSE = true).
  { subst df2. rewrite has_col_parse_dates. unfold has_col.
    rewrite Hcols1. exact Hfirst. }
  rewrite Hcol3, Hres in Hout.
  rewrite has_col_set_column, Hcol3, Hfirst in Hout. simpl in Hout.
  injection Hout as <-. split; [|split].
  - rewrite columns_set_column_present
      by (by rewrite !has_col_set_column, Hcol3, Hres).
    rewrite columns_set_column_present
      by (by rewrite has_col_set_column, Hcol3, Hres).
    unfold set_column; simpl. by rewrite Hcol3, Hcols3.
  - simpl. rewrite !length_fmap. subst df3 df2.
    rewrite !rows_parse_dates, !length_fmap. subst df1. simpl.
    by rewrite length_fmap.
  - intros i r Hr.
    pose proof (lookup_set_column df RATING
                  (λ r, to_numeric parse_numeric (cell RATING r)) i r Hr) as H1.
    pose proof (lookup_parse_dates df1 PURCHASE i _ H1) as H2.
    pose proof (lookup_parse_dates df2 FIRST_RESPONSE i _ H2) as H3.
    rewrite Hfirst2, Hser2 in H3.
    eexists. split.
    { do 3 apply lookup_set_column. exact H3. }
    rewrite Hser3. unfold duration, resolution_ts, first_response_ts.
    destruct (has_col df1 PURCHASE); cell_simpl; done.
Qed.

(** The cleaner establishes the column types that the filter engine and
    the aggregator rely on. *)

Lemma to_numeric_shape c :
  to_numeric parse_numeric c = NA ∨ ∃ q, to_numeric parse_numeric c = Num q.
Proof.
  unfold to_numeric. destruct c; eauto; destruct (parse_numeric _); eauto.
Qed.

Lemma clean_data_rating_numeric df out :
  clean_data parse_numeric parse_datetime df = ok out →
  numeric_series (series out RATING).
Proof.
  unfold clean_data.
  intros (rating & _ & Hout)%bind_ok.
  assert (Hnum : numeric_series
            (series (set_column df RATING
                       (λ r, to_numeric parse_numeric (cell RATING r))) RATING)).
  { rewrite series_set_column. apply Forall_fmap, Forall_forall.
    intros r _. apply to_numeric_shape. }
  destruct (has_col _ RESOLUTION); [destruct (has_col _ FIRST_RESPONSE)|];
    injection Hout as <-;
    rewrite ?series_set_column_ne by distinct_columns;
    rewrite !series_parse_dates_ne by distinct_columns;
    exact Hnum.
Qed.

Lemma clean_data_purchase_datetime df out :
  has_col df PURCHASE = true →
  clean_data parse_numeric parse_datetime df = ok out →
  datetime_series (series out PURCHASE).
Proof.
  intros Hpurchase. unfold clean_data.
  intros (rating & _ & Hout)%bind_ok.
  set (df1 := set_column df RATING
                (λ r, to_numeric parse_numeric (cell RATING r))) in *.
  assert (Hdt : datetime_series
            (series (parse_dates parse_datetime df1 PURCHASE) PURCHASE)).
  { unfold parse_dates.
    replace (has_col df1 PURCHASE) with true
      by (subst df1; by rewrite has_col_set_column, Hpurchase).
    rewrite series_set_column. apply Forall_fmap, Forall_forall.
    intros r _. apply to_datetime_shape. }
  destruct (has_col _ RESOLUTION); [destruct (has_col _ FIRST_RESPONSE)|];
    injection Hout as <-;
    rewrite ?series_set_column_ne by distinct_columns;
    rewrite series_parse_dates_ne by distinct_columns;
    exact Hdt.
Qed.

Lemma clean_data_raises df :
  has_col df RATING = false →
  clean_data parse_numeric parse_datetime df = raise (KeyError RATING).
Proof.
  intros Hrating. unfold clean_data. by rewrite get_column_absent.
Qed.

(** Without a first-response column every duration is null. *)
Lemma clean_data_no_first_response df out :
  has_col df RESOLUTION = true → has_col df FIRST_RESPONSE = false →
  clean_data parse_numeric parse_datetime df = ok out →
  ∀ i r, rows df !! i = Some r →
    ∃ r', rows out !! i = Some r' ∧ cell RESOLUTION r' = NA.
Proof.
  intros Hres Hfirst. unfold clean_data.
  intros (rating & [Hrating _]%get_column_ok & Hout)%bind_ok.
  set (df1 := set_column df RATING
                (λ r, to_numeric parse_numeric (cell RATING r))) in *.
  set (df2 := parse_dates parse_datetime df1 PURCHASE) in *.
  set (df3 := parse_dates parse_datetime df2 FIRST_RESPONSE) in *.
  assert (Hcols1 : columns df1 = columns df)
    by (by apply columns_set_column_present).
  assert (Hcol3 : ∀ c, has_col df3 c = has_col df c).
  { intros c. subst df3 df2. rewrite !has_col_parse_dates.
    unfold has_col. by rewrite Hcols1. }
  rewrite Hcol3, Hres in Hout.
  rewrite has_col_set_column, Hcol3, Hfirst in Hout. simpl in Hout.
  injection Hout as <-. intros i r Hr.
  pose proof (lookup_set_column df RATING
                (λ r, to_numeric parse_numeric (cell RATING r)) i r Hr) as H1.
  pose proof (lookup_parse_dates df1 PURCHASE i _ H1) as H2.
  pose proof (lookup_parse_dates df2 FIRST_RESPONSE i _ H2) as H3.
  eexists. split.
  { do 2 apply lookup_set_column. exact H3. }
  by cell_simpl.
Qed.

(** C1: on a table with the raw resolution column, a row whose resolution
    and first-response timestamps parse to [t] and [f] gets the duration
    [(t - f)] nanoseconds expressed in hours when [f < t], and null when
    [t <= f]; a row whose first-response entry is missing, null or does
    not parse gets a null duration. *)
Theorem clean_data_duration df out i r :
  has_col df RESOLUTION = true →
  clean_data parse_numeric parse_datetime df = ok out →
  rows df !! i = Some r →
  ∃ r', rows out !! i = Some r'
    ∧ (has_col df FIRST_RESPONSE = true →
       ∀ t f,
         resolution_ts parse_datetime df r = Time t →
         first_response_ts parse_datetime df r = Time f →
         (f < t → cell RESOLUTION r' = Num (Q2Qc ((t - f) # 3600000000000)))
         ∧ (t ≤ f → cell RESOLUTION r' = NA))
    ∧ (has_col df FIRST_RESPONSE = false
       ∨ cell FIRST_RESPONSE r = NA
       ∨ first_response_ts parse_datetime df r = NA →
       cell RESOLUTION r' = NA).
Proof.
  intros Hres Hout Hr.
  destruct (has_col df FIRST_RESPONSE) eqn:Hfirst.
  - destruct (clean_data_resolution df out Hres Hfirst Hout) as (_ & _ & Hrows).
    destruct (Hrows i r Hr) as (r' & Hr' & _ & _ & Hdur).
    exists r'. split; [done|]. rewrite Hdur. split.
    + intros _ t f Ht Hf. split; intros Hcmp.
      * by apply duration_positive.
      * by eapply duration_nonpositive.
    + intros [Hno | [Hna | Hna]]; [done|..];
        apply duration_no_first_response; [|done].
      unfold first_response_ts. by rewrite Hna.
  - destruct (clean_data_no_first_response df out Hres Hfirst Hout i r Hr)
      as (r' & Hr' & Hna).
    exists r'. split; [done|]. split; [done|]. by intros _.
Qed.

(** C4: on a table with the raw resolution and first-response columns,
    every row of the output of [clean_data] has a duration that is null
    or a number strictly above zero. *)
Theorem clean_data_duration_null_or_positive df out :
  has_col df RESOLUTION = true → has_col df FIRST_RESPONSE = true →
  clean_data parse_numeric parse_datetime df = ok out →
  Forall (λ r', cell RESOLUTION r' = NA
                ∨ ∃ q, cell RESOLUTION r' = Num q ∧ (0 < q)%Qc)
    (rows out).
Proof.
  intros Hres Hfirst Hout.
  destruct (clean_data_resolution df out Hres Hfirst Hout) as (_ & Hlen & Hrows).
  apply Forall_lookup. intros i r' Hr'.
  destruct (lookup_lt_is_Some_2 (rows df) i) as [r Hr].
  { rewrite <- Hlen. by eapply lookup_lt_Some. }
  destruct (Hrows i r Hr) as (r'' & Hr'' & _ & _ & Hdur).
  rewrite Hr' in Hr''. injection Hr'' as <-.
  rewrite Hdur. apply duration_shape.
Qed.

(** C10: on a table with the raw resolution and first-response columns,
    the output of [clean_data] has the input's column names in their
    order, followed by ["Time to Resolution Timestamp"] unless the input
    had that name already.  Row by row the new column holds the raw
    resolution entry as a timestamp: a null stays null, a timestamp stays
    as it is, anything else is parsed and is null when it does not parse.
    ["Time to Resolution"] no longer holds the raw entry: it holds the
    hours from the first-response timestamp [f] to the resolution
    timestamp [t] of the output row, [(t - f)] nanoseconds over
    3600000000000, when [f < t], and null when [t <= f] or when one of
    the two is null; so it is null or a number above zero. *)
Theorem clean_data_resolution_columns df out :
  has_col df RESOLUTION = true → has_col df FIRST_RESPONSE = true →
  clean_data parse_numeric parse_datetime df = ok out →
  columns out
  = (if has_col df RESOLUTION_TS then columns df
     else (columns df ++ [RESOLUTION_TS])%list)
  ∧ RESOLUTION_TS ∈ columns out
  ∧ (∀ c, c ∈ columns df → c ∈ columns out)
  ∧ length (rows out) = length (rows df)
  ∧ ∀ i r, rows df !! i = Some r →
      ∃ r', rows out !! i = Some r'
            ∧ cell RESOLUTION_TS r'
              = match cell RESOLUTION r with
                | NA => NA
                | Time t => Time t
                | raw => match parse_datetime (series df RESOLUTION) raw with
                         | Some t => Time t
                         | None => NA
                         end
                end
            ∧ cell FIRST_RESPONSE r' = first_response_ts parse_datetime df r
            ∧ (∀ t f,
                 cell RESOLUTION_TS r' = Time t →
                 cell FIRST_RESPONSE r' = Time f →
                 (f < t →
                  cell RESOLUTION r' = Num (Q2Qc ((t - f) # 3600000000000)))
                 ∧ (t ≤ f → cell RESOLUTION r' = NA))
            ∧ (cell RESOLUTION_TS r' = NA ∨ cell FIRST_RESPONSE r' = NA →
               cell RESOLUTION r' = NA)
            ∧ (cell RESOLUTION r' = NA
               ∨ ∃ q, cell RESOLUTION r' = Num q ∧ (0 < q)%Qc).
Proof.
  intros Hres Hfirst Hout.
  destruct (clean_data_resolution df out Hres Hfirst Hout)
    as (Hcols & Hlen & Hrows).
  assert (Hrow : ∀ i r, rows df !! i = Some r →
    ∃ r', rows out !! i = Some r'
      ∧ cell RESOLUTION_TS r'
        = match cell RESOLUTION r with
          | NA => NA
          | Time t => Time t
          | raw => match parse_datetime (series df RESOLUTION) raw with
                   | Some t => Time t
                   | None => NA
                   end
          end
      ∧ cell FIRST_RESPONSE r' = first_response_ts parse_datetime df r
      ∧ (∀ t f,
           cell RESOLUTION_TS r' = Time t →
           cell FIRST_RESPONSE r' = Time f →
           (f < t →
            cell RESOLUTION r' = Num (Q2Qc ((t - f) # 3600000000000)))
           ∧ (t ≤ f → cell RESOLUTION r' = NA))
      ∧ (cell RESOLUTION_TS r' = NA ∨ cell FIRST_RESPONSE r' = NA →
         cell RESOLUTION r' = NA)
      ∧ (cell RESOLUTION r' = NA
         ∨ ∃ q, cell RESOLUTION r' = Num q ∧ (0 < q)%Qc)).
  { intros i r Hr. destruct (Hrows i r Hr) as (r' & Hr' & Hts & Hfr & Hdur).
    exists r'. split; [done|]. rewrite Hts, Hfr, Hdur.
    split; [|split; [done|split; [|split]]].
    - unfold resolution_ts, to_datetime. by destruct (cell RESOLUTION r).
    - intros t f Ht Hf. split; intros Hcmp.
      + by apply duration_positive.
      + by eapply duration_nonpositive.
    - intros [Hna | Hna].
      + unfold duration. by rewrite Hna.
      + by apply duration_no_first_response.
    - apply duration_shape. }
  split; [done|]. rewrite Hcols.
  destruct (has_col df RESOLUTION_TS) eqn:Hts.
  - apply has_col_true in Hts. by repeat split.
  - repeat split; try done.
    + apply elem_of_app. right. by left.
    + intros c Hc. apply elem_of_app. by left.
Qed.

End CleanerProperties.

Lemma clean_data_duration_witness :
  ∃ out r',
    clean_data Sample.parse_numeric Sample.parse_datetime Sample.raw = ok out
    ∧ rows out !! 0%nat = Some r'
    ∧ cell RESOLUTION r' = Num (Q2Qc ((5 * Sample.hour / 2) # 3600000000000)).
Proof.
  destruct (clean_data Sample.parse_numeric Sample.parse_datetime Sample.raw)
    as [e|out] eqn:Hout; [by vm_compute in Hout|].
  destruct (clean_data_duration
              Sample.parse_numeric Sample.parse_datetime Sample.raw out 0%nat _
              eq_refl Hout eq_refl) as (r' & Hr' & Hdur & _).
  exists out, r'. split; [done|]. split; [done|].
  by apply (Hdur eq_refl (12 * Sample.hour + Sample.hour / 2) (10 * Sample.hour)).
Defined.

Lemma clean_data_duration_null_or_positive_witness :
  ∃ out,
    clean_data Sample.parse_numeric Sample.parse_datetime Sample.raw = ok out
    ∧ Forall (λ r', cell RESOLUTION r' = NA
                    ∨ ∃ q, cell RESOLUTION r' = Num q ∧ (0 < q)%Qc)
        (rows out).
Proof.
  destruct (clean_data Sample.parse_numeric Sample.parse_datetime Sample.raw)
    as [e|out] eqn:Hout; [by vm_compute in Hout|].
  exists out. split; [done|].
  exact (clean_data_duration_null_or_positive
           Sample.parse_numeric Sample.parse_datetime Sample.raw out
           eq_refl eq_refl Hout).
Defined.

Lemma clean_data_resolution_columns_witness :
  ∃ out r',
    clean_data Sample.parse_numeric Sample.parse_datetime Sample.raw = ok out
    ∧ columns out = (columns Sample.raw ++ [RESOLUTION_TS])%list
    ∧ rows out !! 0%nat = Some r'
    ∧ cell RESOLUTION_TS r' = Time (12 * Sample.hour + Sample.hour / 2)
    ∧ cell RESOLUTION r' = Num (Q2Qc (5 # 2)).
Proof.
  destruct (clean_data Sample.parse_numeric Sample.parse_datetime Sample.raw)
    as [e|out] eqn:Hout; [by vm_compute in Hout|].
  destruct (clean_data_resolution_columns
              Sample.parse_numeric Sample.parse_datetime Sample.raw out
              eq_refl eq_refl Hout) as (Hcols & _ & _ & _ & Hrows).
  destruct (Hrows 0%nat _ eq_refl) as (r' & Hr' & Hts & Hfr & Hdur & _).
  assert (Hts' : cell RESOLUTION_TS r'
                 = Time (12 * Sample.hour + Sample.hour / 2))
    by (rewrite Hts; reflexivity).
  assert (Hfr' : cell FIRST_RESPONSE r' = Time (10 * Sample.hour))
    by (rewrite Hfr; reflexivity).
  exists out, r'. split; [done|]. split; [by rewrite Hcols|].
  split; [done|]. split; [done|].
  rewrite (proj1 (Hdur _ _ Hts' Hfr')) by (by vm_compute).
  f_equal. by apply Qc_is_canon.
Defined.

(** ** Sorting *)

Section StableSortProperties.
Context {A : Type} (R : relation A) `{!RelDecision R}.

Lemma insert_by_Permutation x l : insert_by R x l ≡ₚ x :: l.
Proof.
  induction l as [|y l IH]; simpl; [done|].
  case_decide; [done|].
  rewrite IH. apply Permutation_swap.
Qed.

Lemma stable_sort_Permutation l : stable_sort R l ≡ₚ l.
Proof.
  induction l as [|x l IH]; simpl; [done|].
  by rewrite insert_by_Permutation, IH.
Qed.

Lemma HdRel_insert_by `{!Total R} a x l :
  R a x → HdRel R a l → HdRel R a (insert_by R x l).
Proof.
  intros Hax Hal. destruct l as [|y l]; simpl.
  - by constructor.
  - case_decide; constructor; [done|]. by inversion Hal.
Qed.

Lemma Sorted_insert_by `{!Total R} x l :
  Sorted R l → Sorted R (insert_by R x l).
Proof.
  induction 1 as [|y l Hsorted IH Hhd]; simpl.
  - by repeat constructor.
  - case_decide as Hxy.
    + by repeat constructor.
    + constructor; [done|].
      apply HdRel_insert_by; [|done].
      by destruct (total R x y).
Qed.

Lemma Sorted_stable_sort `{!Total R} l : Sorted R (stable_sort R l).
Proof.
  induction l as [|x l IH]; simpl; [constructor|].
  by apply Sorted_insert_by.
Qed.

Lemma StronglySorted_stable_sort `{!Total R, !Transitive R} l :
  StronglySorted R (stable_sort R l).
Proof. apply Sorted_StronglySorted; [done|]. apply Sorted_stable_sort. Qed.

End StableSortProperties.

(** A stronger order on a sorted list whose elements all satisfy [P]. *)
Lemma StronglySorted_refine {A} (R R' : relation A) (P : A → Prop) l :
  (∀ a b, P a → P b → R a b → R' a b) →
  Forall P l → StronglySorted R l → StronglySorted R' l.
Proof.
  intros Himpl HP Hsorted.
  induction Hsorted as [|a l _ IH Hall]; [constructor|].
  apply Forall_cons in HP as [Ha Hl].
  constructor; [by apply IH|].
  apply Forall_forall. intros b Hb.
  rewrite Forall_forall in Hall, Hl. auto.
Qed.

(** ** Groups *)

Lemma elem_of_distinct l x : x ∈ distinct l ↔ x ∈ l.
Proof.
  induction l as [|y l IH]; simpl; [done|].
  rewrite !elem_of_cons, list_elem_of_filter, IH.
  destruct (decide (x = y)); tauto.
Qed.

Lemma NoDup_distinct l : NoDup (distinct l).
Proof.
  induction l as [|y l IH]; simpl; constructor.
  - rewrite list_elem_of_filter. by intros [Hne _].
  - by apply NoDup_filter.
Qed.

Lemma sum_list_with_zero {A} (f : A → nat) (l : list A) :
  (∀ a, a ∈ l → f a = 0%nat) → sum_list_with f l = 0%nat.
Proof.
  induction l as [|a l IH]; intros Hf; simpl; [done|].
  rewrite Hf by left. rewrite IH; [done|].
  intros b Hb. apply Hf. by right.
Qed.

Lemma sum_list_with_plus {A} (f g : A → nat) (l : list A) :
  sum_list_with (λ a, (f a + g a)%nat) l
  = (sum_list_with f l + sum_list_with g l)%nat.
Proof. induction l as [|a l IH]; simpl; [done|]. rewrite IH. lia. Qed.

Lemma sum_list_with_ext {A} (f g : A → nat) (l : list A) :
  (∀ a, f a = g a) → sum_list_with f l = sum_list_with g l.
Proof. intros Hfg. induction l as [|a l IH]; simpl; [done|]. by rewrite Hfg, IH. Qed.

(** Among distinct keys exactly one is the key of a given element. *)
Lemma sum_list_with_indicator (x : Cell) (keys : list Cell) :
  NoDup keys → x ∈ keys →
  sum_list_with (λ k, if decide (x = k) then 1%nat else 0%nat) keys = 1%nat.
Proof.
  induction 1 as [|k keys Hk Hnd IH]; [by intros ?%elem_of_nil|].
  intros Hin. simpl. case_decide as Heq.
  - subst k. rewrite sum_list_with_zero; [done|].
    intros k Hkin. case_decide; [by subst k|done].
  - rewrite IH; [done|]. apply elem_of_cons in Hin as [?|?]; done.
Qed.

(** The groups of a list under a key function partition it: the sizes of
    the groups of distinct keys that cover the list add up to its
    length. *)
Lemma group_sizes_sum {A} (key : A → Cell) (l : list A) (keys : list Cell) :
  NoDup keys → (∀ a, a ∈ l → key a ∈ keys) →
  sum_list_with (λ k, length (filter (λ a, key a = k) l)) keys = length l.
Proof.
  intros Hnd. induction l as [|a l IH]; intros Hcover.
  - by apply sum_list_with_zero.
  - rewrite sum_list_with_ext
      with (g := λ k, ((if decide (key a = k) then 1 else 0)
                       + length (filter (λ a, key a = k) l))%nat).
    + rewrite sum_list_with_plus, sum_list_with_indicator, IH; [done| |done|].
      * intros b Hb. apply Hcover. by right.
      * apply Hcover. by left.
    + intros k. rewrite filter_cons. by case_decide.
Qed.

Lemma length_filter_fmap {A} (key : A → Cell) (k : Cell) (l : list A) :
  length (filter (λ c, c = k) (key <$> l))
  = length (filter (λ a, key a = k) l).
Proof.
  induction l as [|a l IH]; csimpl; [done|].
  rewrite !filter_cons. case_decide; simpl; by rewrite IH.
Qed.

Lemma sum_list_with_fmap {A B} (f : B → nat) (g : A → B) (l : list A) :
  sum_list_with f (g <$> l) = sum_list_with (f ∘ g) l.
Proof. induction l as [|a l IH]; csimpl; [done|]. by rewrite IH. Qed.

(** ** Volume by group *)

Global Instance count_desc_total : Total count_desc.
Proof. intros a b. unfold count_desc. lia. Qed.

Global Instance count_desc_trans : Transitive count_desc.
Proof. intros a b c. unfold count_desc. lia. Qed.

Lemma value_counts_groups col :
  vol_group <$> value_counts col ≡ₚ distinct col.
Proof.
  unfold value_counts. rewrite stable_sort_Permutation.
  rewrite <- list_fmap_compose. by rewrite list_fmap_id.
Qed.

Lemma value_counts_counts col :
  Forall (λ e, vol_count e = length (filter (λ c, c = vol_group e) col))
    (value_counts col).
Proof.
  unfold value_counts. rewrite stable_sort_Permutation.
  apply Forall_fmap, Forall_forall. done.
Qed.

Lemma value_counts_sum col :
  sum_list_with vol_count (value_counts col) = length col.
Proof.
  unfold value_counts. rewrite stable_sort_Permutation, sum_list_with_fmap.
  simpl. apply (group_sizes_sum id).
  - apply NoDup_distinct.
  - intros c Hc. by apply elem_of_distinct.
Qed.




(** ** Satisfaction by group *)

Global Instance mean_desc_total : Total mean_desc.
Proof.
  intros a b. unfold mean_desc.
  destruct (sat_mean a) as [| |x|], (sat_mean b) as [| |y|]; auto.
  destruct (total Qcle x y); auto.
Qed.

Global Instance mean_desc_trans : Transitive mean_desc.
Proof.
  intros a b c. unfold mean_desc.
  destruct (sat_mean c) as [| |z|]; try done.
  destruct (sat_mean b) as [| |y|]; try done.
  destruct (sat_mean a) as [| |x|]; try done.
  intros Hyx Hzy. by transitivity y.
Qed.

Lemma omap_id_Some {A B} (f : A → B) (l : list A) :
  omap id ((λ a, Some (f a)) <$> l) = f <$> l.
Proof. induction l as [|a l IH]; csimpl; [done|]. by rewrite IH. Qed.

(** The mean of a non-empty series of numbers. *)
Lemma mean_numbers (col : list Cell) :
  col ≠ [] → Forall (λ c, ∃ q, c = Num q) col →
  mean col
  = ok (Num (Qc_sum (rating_value <$> col) / Qc_of_nat (length col))%Qc).
Proof.
  intros Hne Hnum. unfold mean.
  rewrite (traverse_total _ (λ c, Some (rating_value c))).
  - simpl. rewrite omap_id_Some.
    destruct col as [|c col]; [done|]. csimpl.
    by rewrite length_fmap.
  - eapply Forall_impl; [exact Hnum|]. by intros c [q ->].
Qed.

Lemma count_numbers (col : list Cell) :
  Forall (λ c, ∃ q, c = Num q) col → count col = length col.
Proof.
  intros Hnum. unfold count. f_equal.
  induction Hnum as [|c col [q ->] _ IH]; [done|].
  rewrite filter_cons_True by done. by rewrite IH.
Qed.

Lemma rated_rows_numbers df :
  numeric_series (series df RATING) →
  Forall (λ r, ∃ q, cell RATING r = Num q) (rated_rows df).
Proof.
  intros Hnum. apply Forall_forall.
  intros r [Hr Hin]%list_elem_of_filter.
  unfold numeric_series, series in Hnum.
  rewrite Forall_fmap, Forall_forall in Hnum.
  destruct (Hnum r Hin) as [Hna | Hq]; done.
Qed.

Lemma mask_rows_notna df :
  mask_rows ((λ c, bool_decide (notna c)) <$> series df RATING) (rows df)
  = rated_rows df.
Proof.
  unfold series, rated_rows.
  rewrite <- list_fmap_compose, mask_rows_fmap.
  apply list_filter_iff. intros r; simpl. apply bool_decide_eq_true.
Qed.

(** The aggregation of a group that has a member. *)
Lemma aggregate_group (valid : list Row) (c : string) (k : Cell) :
  Forall (λ r, ∃ q, cell RATING r = Num q) valid →
  k ∈ cell c <$> valid →
  aggregate valid c k = ok (group_row valid c k).
Proof.
  intros Hnum Hk. unfold aggregate. fold (group_members valid c k).
  assert (Hmem : Forall (λ c, ∃ q, c = Num q)
                   (cell RATING <$> group_members valid c k)).
  { apply Forall_fmap, Forall_forall.
    intros r [_ Hr]%list_elem_of_filter.
    rewrite Forall_forall in Hnum. by apply Hnum. }
  rewrite mean_numbers; [|..|done].
  - simpl. rewrite count_numbers by done.
    unfold group_mean. by rewrite !length_fmap.
  - apply list_elem_of_fmap in Hk as (r & -> & Hr).
    intros Hnil%fmap_nil_inv.
    eapply (filter_nil_not_elem_of _ _ r); [exact Hnil|done|done].
Qed.

Lemma get_column_select df mask c :
  has_col df c = true →
  get_column (select df mask) c = ok (cell c <$> rows (select df mask)).
Proof. intros Hc. unfold get_column, has_col in *. simpl. by rewrite Hc. Qed.

Lemma get_satisfaction_by_group_no_rating df group_column :
  has_col df RATING = true → rated_rows df = [] →
  get_satisfaction_by_group df group_column = ok empty_summary.
Proof.
  intros Hrating Hnil. unfold get_satisfaction_by_group.
  rewrite get_column_present by done. simpl.
  unfold len. simpl. rewrite mask_rows_notna, Hnil. done.
Qed.

Lemma get_satisfaction_by_group_rated df group_column :
  has_col df RATING = true → has_col df group_column = true →
  numeric_series (series df RATING) → rated_rows df ≠ [] →
  group_column ∉ agg_names →
  get_satisfaction_by_group df group_column
  = ok (mkSummary [group_column; "Average Satisfaction"; "Count"]
          (stable_sort mean_desc
             (group_row (rated_rows df) group_column
                <$> stable_sort key_le
                      (distinct (cell group_column <$> rated_rows df))))).
Proof.
  intros Hrating Hgroup Hnum Hne Hname. unfold get_satisfaction_by_group.
  rewrite get_column_present by done. simpl.
  unfold len. rewrite get_column_select by done. simpl.
  rewrite !mask_rows_notna.
  rewrite bool_decide_eq_false_2 by (by intros ?%nil_length_inv).
  rewrite (traverse_total _ (group_row (rated_rows df) group_column)).
  { simpl. by rewrite reset_index_ok. }
  apply Forall_forall. intros k Hk.
  rewrite stable_sort_Permutation, elem_of_distinct in Hk.
  apply aggregate_group; [|done].
  by apply rated_rows_numbers.
Qed.

(** A group column named like an aggregate: the grouped result cannot
    take its index as a column. *)
Lemma get_satisfaction_by_group_collision df group_column :
  has_col df RATING = true → has_col df group_column = true →
  numeric_series (series df RATING) → rated_rows df ≠ [] →
  group_column ∈ agg_names →
  get_satisfaction_by_group df group_column = raise ValueError.
Proof.
  intros Hrating Hgroup Hnum Hne Hname. unfold get_satisfaction_by_group.
  rewrite get_column_present by done. simpl.
  unfold len. rewrite get_column_select by done. simpl.
  rewrite !mask_rows_notna.
  rewrite bool_decide_eq_false_2 by (by intros ?%nil_length_inv).
  rewrite (traverse_total _ (group_row (rated_rows df) group_column)).
  { simpl. by rewrite reset_index_raises. }
  apply Forall_forall. intros k Hk.
  rewrite stable_sort_Permutation, elem_of_distinct in Hk.
  apply aggregate_group; [|done].
  by apply rated_rows_numbers.
Qed.




(** The groups of three ratings (5 and 3 for "High", 4 for "Low"): both
    means are 4, and the tie keeps "High" first. *)
Example get_satisfaction_by_group_three_ratings :
  ∃ out, get_satisfaction_by_group Sample.three_ratings PRIORITY = ok out
    ∧ headers out = [PRIORITY; "Average Satisfaction"; "Count"]
    ∧ (λ e, (sat_group e, sat_count e)) <$> entries out
      = [(Str "High", 2%nat); (Str "Low", 1%nat)]
    ∧ Forall (λ e, sat_mean e = Sample.stars 4) (entries out).
Proof.
  eexists. split; [vm_compute; reflexivity|].
  split; [reflexivity|]. split; [reflexivity|].
  unfold Sample.stars. simpl.
  repeat (apply Forall_cons; split;
            [simpl; f_equal; apply Qc_is_canon; reflexivity|]).
  by apply Forall_nil.
Qed.


(** * Further properties *)

(** ** The filter engine as one predicate *)

Lemma filter_all {A} (P : A → Prop) `{!∀ x, Decision (P x)} (l : list A) :
  (∀ x, P x) → filter P l = l.
Proof.
  intros HP. induction l as [|a l IH]; [done|].
  by rewrite filter_cons_True, IH.
Qed.

Lemma frame_eta df : {| columns := columns df; rows := rows df |} = df.
Proof. by destruct df. Qed.

Lemma allow_filter_ok df c values out :
  allow_filter df c values = ok out →
  needs df c values
  ∧ out = {| columns := columns df;
             rows := filter (allowed values c) (rows df) |}.
Proof.
  destruct values as [[|v vs]|]; simpl.
  - intros [= <-]. by rewrite filter_all, frame_eta.
  - intros (col & [Hc ->]%get_column_ok & [= <-])%bind_ok.
    split; [done|]. unfold select, isin, series. f_equal.
    rewrite <- list_fmap_compose, mask_rows_fmap.
    apply list_filter_iff. intros r; simpl. apply bool_decide_eq_true.
  - intros [= <-]. by rewrite filter_all, frame_eta.
Qed.

Lemma allow_filter_needs df c values :
  needs df c values →
  allow_filter df c values
  = ok {| columns := columns df;
          rows := filter (allowed values c) (rows df) |}.
Proof.
  destruct values as [[|v vs]|]; simpl.
  - intros _. by rewrite filter_all, frame_eta.
  - intros Hc. rewrite get_column_present by done. simpl.
    unfold select, isin, series. do 2 f_equal.
    rewrite <- list_fmap_compose, mask_rows_fmap.
    apply list_filter_iff. intros r; simpl. apply bool_decide_eq_true.
  - intros _. by rewrite filter_all, frame_eta.
Qed.

Lemma date_filter_ok df date_range out :
  date_filter df date_range = ok out →
  out = {| columns := columns df;
           rows := filter (dated df date_range) (rows df) |}.
Proof.
  destruct date_range as [[s e]|].
  - destruct (has_col df PURCHASE) eqn:Hc.
    + intros Hout. apply date_filter_active_ok in Hout; [|done].
      subst out. f_equal. apply list_filter_iff. intros r; simpl.
      by rewrite Hc.
    + rewrite date_filter_inactive by auto. intros [= <-].
      rewrite filter_all, frame_eta; [done|]. intros r; simpl. by rewrite Hc.
  - simpl. intros [= <-]. by rewrite filter_all, frame_eta.
Qed.

Lemma date_filter_ready df date_range :
  date_ready df date_range →
  date_filter df date_range
  = ok {| columns := columns df;
          rows := filter (dated df date_range) (rows df) |}.
Proof.
  destruct date_range as [[s e]|]; simpl.
  - destruct (has_col df PURCHASE) eqn:Hc.
    + intros Hdt. specialize (Hdt eq_refl).
      rewrite !compare_column_datetime by done. simpl.
      unfold select. rewrite date_mask_in_range. do 2 f_equal.
      apply list_filter_iff. intros r; simpl. by rewrite Hc.
    + intros _. rewrite filter_all, frame_eta; [done|].
      intros r; simpl. by rewrite Hc.
  - intros _. by rewrite filter_all, frame_eta.
Qed.

Lemma passes_filter df dr p c s pr (l : list Row) :
  filter (allowed pr PRODUCT)
    (filter (allowed s STATUS)
       (filter (allowed c CHANNEL)
          (filter (allowed p PRIORITY) (filter (dated df dr) l))))
  = filter (passes df dr p c s pr) l.
Proof.
  rewrite !list_filter_filter. apply list_filter_iff.
  intros r. unfold passes. tauto.
Qed.

Lemma has_col_columns df df' c :
  columns df' = columns df → has_col df' c = has_col df c.
Proof. intros Hcols. unfold has_col. by rewrite Hcols. Qed.

Lemma needs_columns df df' c values :
  columns df' = columns df → needs df' c values ↔ needs df c values.
Proof.
  intros Hcols. destruct values as [[|v vs]|]; simpl; try done.
  by rewrite (has_col_columns df df').
Qed.

Lemma missing_columns_eq df df' c values :
  columns df' = columns df → missing df' c values = missing df c values.
Proof.
  intros Hcols. destruct values as [[|v vs]|]; simpl; try done.
  by rewrite (has_col_columns df df').
Qed.

Lemma missing_None df c values : missing df c values = None → needs df c values.
Proof.
  destruct values as [[|v vs]|]; simpl; try done.
  by destruct (has_col df c).
Qed.

Lemma missing_Some df c values c' :
  missing df c values = Some c' →
  c' = c ∧ allow_filter df c values = raise (KeyError c).
Proof.
  destruct values as [[|v vs]|]; simpl; try done.
  destruct (has_col df c) eqn:Hc; [done|]. intros [= <-].
  split; [done|]. by rewrite get_column_absent.
Qed.

Lemma allow_filter_cases df c values :
  allow_filter df c values
  = match missing df c values with
    | Some c' => raise (KeyError c')
    | None => ok {| columns := columns df;
                    rows := filter (allowed values c) (rows df) |}
    end.
Proof.
  destruct (missing df c values) as [c'|] eqn:Hm.
  - by apply missing_Some in Hm as [-> ->].
  - by apply allow_filter_needs, missing_None.
Qed.

Lemma allow_filter_step {B} df c values (k : DataFrame → result B) :
  bind (allow_filter df c values) k
  = match missing df c values with
    | Some c' => raise (KeyError c')
    | None => k {| columns := columns df;
                   rows := filter (allowed values c) (rows df) |}
    end.
Proof. rewrite allow_filter_cases. by destruct (missing df c values). Qed.

(** What a returning call of [filter_data] has read and what it gives. *)
Lemma filter_data_ok df dr p c s pr out :
  filter_data df dr p c s pr = ok out →
  needs df PRIORITY p ∧ needs df CHANNEL c
  ∧ needs df STATUS s ∧ needs df PRODUCT pr
  ∧ out = {| columns := columns df;
             rows := filter (passes df dr p c s pr) (rows df) |}.
Proof.
  unfold filter_data.
  intros (df1 & ->%date_filter_ok & H1)%bind_ok.
  apply bind_ok in H1 as (df2 & [Hp ->]%allow_filter_ok & H2).
  apply bind_ok in H2 as (df3 & [Hc ->]%allow_filter_ok & H3).
  apply bind_ok in H3 as (df4 & [Hs ->]%allow_filter_ok & H4).
  apply allow_filter_ok in H4 as [Hpr ->]. simpl in *.
  by rewrite passes_filter.
Qed.

(** In the model, a call of [filter_data] whose columns are there
    returns. *)
Lemma filter_data_ready df dr p c s pr :
  date_ready df dr →
  needs df PRIORITY p → needs df CHANNEL c →
  needs df STATUS s → needs df PRODUCT pr →
  filter_data df dr p c s pr
  = ok {| columns := columns df;
          rows := filter (passes df dr p c s pr) (rows df) |}.
Proof.
  intros Hdate Hp Hc Hs Hpr. unfold filter_data.
  rewrite date_filter_ready by done. simpl.
  rewrite allow_filter_needs by done. simpl.
  rewrite allow_filter_needs by done. simpl.
  rewrite allow_filter_needs by done. simpl.
  rewrite allow_filter_needs by done. simpl.
  by rewrite passes_filter.
Qed.

(** X1: a result of [filter_data] has the columns of the input and
    exactly the input rows that satisfy all five constraints at once, in
    their order; so it never has more rows than the input. *)
Theorem filter_data_conjunction df date_range priorities channels statuses
    products out :
  filter_data df date_range priorities channels statuses products = ok out →
  columns out = columns df
  ∧ rows out
    = filter (passes df date_range priorities channels statuses products)
        (rows df)
  ∧ rows out `sublist_of` rows df
  ∧ (len out ≤ len df)%nat.
Proof.
  intros (_ & _ & _ & _ & ->)%filter_data_ok. simpl.
  split; [done|]. split; [done|]. split.
  - apply sublist_filter.
  - unfold len; simpl. apply length_filter.
Qed.

Lemma filter_data_conjunction_witness :
  ∃ out,
    filter_data Sample.cleaned (Some (2 * Sample.day, 9 * Sample.day))
      (Some [Str "Low"]) None (Some [Str "Open"; Str "open"]) None = ok out
    ∧ length (rows out) = 2%nat.
Proof.
  destruct (filter_data Sample.cleaned (Some (2 * Sample.day, 9 * Sample.day))
              (Some [Str "Low"]) None (Some [Str "Open"; Str "open"]) None)
    as [e|out] eqn:Hout; [by vm_compute in Hout|].
  exists out. split; [done|].
  destruct (filter_data_conjunction _ _ _ _ _ _ _ Hout) as (_ & -> & _).
  by vm_compute.
Defined.

Lemma date_ready_inactive df date_range :
  date_range = None ∨ has_col df PURCHASE = false → date_ready df date_range.
Proof.
  intros [-> | Hcol]; [done|].
  destruct date_range as [[s e]|]; simpl; [|done]. by rewrite Hcol.
Qed.

(** X2: without a date range, or on a table without the purchase-date
    column, [filter_data] returns whenever the column of every non-empty
    allow-list is in the table; the result has the rows that every
    allow-list admits. *)
Theorem filter_data_returns df date_range priorities channels statuses
    products :
  date_range = None ∨ has_col df PURCHASE = false →
  needs df PRIORITY priorities → needs df CHANNEL channels →
  needs df STATUS statuses → needs df PRODUCT products →
  ∃ out,
    filter_data df date_range priorities channels statuses products = ok out
    ∧ rows out
      = filter (λ r, allowed priorities PRIORITY r ∧ allowed channels CHANNEL r
                     ∧ allowed statuses STATUS r ∧ allowed products PRODUCT r)
          (rows df).
Proof.
  intros Hoff Hp Hc Hs Hpr. eexists. split.
  - apply filter_data_ready; [by apply date_ready_inactive|done..].
  - simpl. apply list_filter_iff. intros r. unfold passes, dated.
    destruct Hoff as [-> | Hcol]; [tauto|].
    destruct date_range as [[s e]|]; [rewrite Hcol|]; tauto.
Qed.

Lemma filter_data_returns_witness :
  ∃ out,
    filter_data Sample.cleaned None
      (Some [Str "Low"]) None (Some [Str "Open"]) (Some []) = ok out
    ∧ length (rows out) = 1%nat.
Proof.
  destruct (filter_data_returns Sample.cleaned None
              (Some [Str "Low"]) None (Some [Str "Open"]) (Some []))
    as (out & Hout & Hrows); [by left|done..|].
  exists out. split; [done|]. rewrite Hrows. by vm_compute.
Defined.

(** X3: without a date range, or on a table without the purchase-date
    column, when some non-empty allow-list has no column in the table,
    [filter_data] raises [KeyError] for the first such column in the
    order priority, channel, status, product. *)
Theorem filter_data_first_missing df date_range priorities channels statuses
    products c rest :
  date_range = None ∨ has_col df PURCHASE = false →
  missing_columns df priorities channels statuses products = c :: rest →
  filter_data df date_range priorities channels statuses products
  = raise (KeyError c).
Proof.
  intros Hdate%date_ready_inactive. unfold missing_columns, filter_data.
  rewrite date_filter_ready by done. simpl.
  rewrite !allow_filter_step, allow_filter_cases. simpl.
  repeat match goal with
  | |- context [missing {| columns := columns df; rows := ?l |} ?c' ?v] =>
      change (missing {| columns := columns df; rows := l |} c' v)
        with (missing df c' v)
  end.
  destruct (missing df PRIORITY priorities),
    (missing df CHANNEL channels), (missing df STATUS statuses),
    (missing df PRODUCT products); simpl; by intros [= <-].
Qed.

Lemma filter_data_first_missing_witness :
  filter_data Sample.cleaned None
    (Some [Str "High"]) (Some [Str "Email"]) None (Some [Str "Router"])
  = raise (KeyError CHANNEL).
Proof.
  apply (filter_data_first_missing _ _ _ _ _ _ CHANNEL [PRODUCT]);
    [by left|done].
Defined.

(** X4: filtering is idempotent: a result of [filter_data], filtered
    again with the same selections, is returned unchanged. *)
Theorem filter_data_idempotent df date_range priorities channels statuses
    products out :
  filter_data df date_range priorities channels statuses products = ok out →
  filter_data out date_range priorities channels statuses products = ok out.
Proof.
  intros (Hp & Hc & Hs & Hpr & ->)%filter_data_ok.
  set (out := {| columns := columns df; rows := _ |}).
  assert (Hcols : columns out = columns df) by done.
  rewrite filter_data_ready; try (by apply (needs_columns df out)).
  - unfold out; simpl. f_equal. f_equal.
    rewrite list_filter_filter. apply list_filter_iff.
    intros r. unfold passes, dated.
    rewrite (has_col_columns df out) by done. tauto.
  - destruct date_range as [[s e]|]; simpl; [|done].
    rewrite (has_col_columns df out) by done. intros Hcol.
    unfold datetime_series, series. apply Forall_fmap, Forall_forall.
    intros r [(Hd & _) _]%list_elem_of_filter.
    simpl in Hd. rewrite Hcol in Hd. unfold in_date_range in Hd. simpl.
    destruct (cell PURCHASE r); try done. eauto.
Qed.

Lemma filter_data_idempotent_witness :
  ∃ out,
    filter_data Sample.cleaned (Some (2 * Sample.day, 9 * Sample.day))
      (Some [Str "Low"]) None None None = ok out
    ∧ filter_data out (Some (2 * Sample.day, 9 * Sample.day))
        (Some [Str "Low"]) None None None = ok out.
Proof.
  destruct (filter_data Sample.cleaned (Some (2 * Sample.day, 9 * Sample.day))
              (Some [Str "Low"]) None None None)
    as [e|out] eqn:Hout; [by vm_compute in Hout|].
  exists out. split; [done|]. by apply (filter_data_idempotent Sample.cleaned).
Defined.

(** ** Averages *)

Lemma Qc_of_nat_pos n : (0 < n)%nat → (0 < Qc_of_nat n)%Qc.
Proof.
  intros Hn. unfold Qclt, Qc_of_nat. cbn [this Q2Qc].
  rewrite !Qred_correct. unfold Qlt; simpl. lia.
Qed.

Lemma Qc_sum_positive (xs : list Qc) :
  xs ≠ [] → Forall (λ x, (0 < x)%Qc) xs → (0 < Qc_sum xs)%Qc.
Proof.
  intros Hne Hpos. destruct Hpos as [|x xs Hx Hxs]; [done|]. simpl.
  apply Qcplus_pos_nonneg; [done|].
  clear Hne Hx. induction Hxs as [|y ys Hy _ IH]; simpl; [done|].
  apply Qcplus_nonneg_nonneg; [by apply Qclt_le_weak|done].
Qed.

Lemma Qc_sum_nonneg (xs : list Qc) :
  Forall (λ x, (0 ≤ x)%Qc) xs → (0 ≤ Qc_sum xs)%Qc.
Proof.
  induction 1 as [|x xs Hx _ IH]; simpl; [done|].
  by apply Qcplus_nonneg_nonneg.
Qed.

(** The mean of numbers none of which is negative is not negative. *)
Lemma average_nonneg (xs : list Qc) :
  Forall (λ x, (0 ≤ x)%Qc) xs →
  average xs = NA ∨ ∃ m, average xs = Num m ∧ (0 ≤ m)%Qc.
Proof.
  intros Hxs. destruct xs as [|x xs]; [by left|]. right.
  eexists. split; [reflexivity|].
  apply Qcmult_nonneg_nonneg; [by apply Qc_sum_nonneg|].
  apply Qclt_le_weak, Qcinv_pos, Qc_of_nat_pos. simpl. lia.
Qed.

(** The mean of numbers above zero is above zero. *)
Lemma average_positive (xs : list Qc) :
  Forall (λ x, (0 < x)%Qc) xs → null_or_positive (average xs).
Proof.
  intros Hxs. destruct xs as [|x xs]; [by left|]. right.
  eexists. split; [reflexivity|].
  apply Qcmult_pos_pos; [by apply Qc_sum_positive|].
  apply Qcinv_pos, Qc_of_nat_pos. simpl. lia.
Qed.

Lemma omap_id_number (col : list Cell) :
  omap id (number <$> col) = numbers col.
Proof.
  unfold numbers. induction col as [|c col IH]; csimpl; [done|].
  rewrite IH. by destruct c.
Qed.

Lemma numeric_number c b : numeric c = ok b → b = number c.
Proof. destruct c; simpl; by intros [= <-]. Qed.

(** What [mean] returns when it returns. *)
Lemma mean_ok (col : list Cell) m :
  mean col = ok m → m = average (numbers col).
Proof.
  unfold mean. intros (vs & Hvs & Hm)%bind_ok.
  apply (traverse_ok _ _ _ _ numeric_number) in Hvs. subst vs.
  rewrite omap_id_number in Hm. unfold average.
  destruct (numbers col); by injection Hm as <-.
Qed.

(** [mean] returns on a numeric series. *)
Lemma mean_numeric (col : list Cell) :
  numeric_series col → mean col = ok (average (numbers col)).
Proof.
  intros Hnum. unfold mean.
  rewrite (traverse_total _ number).
  - simpl. rewrite omap_id_number. unfold average. by destruct (numbers col).
  - eapply Forall_impl; [exact Hnum|]. by intros c [-> | [q ->]].
Qed.

Lemma elem_of_numbers (col : list Cell) q : q ∈ numbers col ↔ Num q ∈ col.
Proof.
  unfold numbers. rewrite list_elem_of_omap. split.
  - intros (c & Hc & Hq). destruct c; simpl in Hq; [done|done| |done].
    by injection Hq as <-.
  - intros Hin. by exists (Num q).
Qed.

(** The mean is null exactly when there is no number. *)
Lemma average_null (col : list Cell) :
  average (numbers col) = NA ↔ ∀ q, Num q ∉ col.
Proof.
  unfold average. destruct (numbers col) as [|x xs] eqn:Hxs.
  - split; [|done]. intros _ q Hq%elem_of_numbers.
    rewrite Hxs in Hq. by apply elem_of_nil in Hq.
  - split; [done|]. intros Hno. destruct (Hno x).
    apply elem_of_numbers. rewrite Hxs. by left.
Qed.

Lemma numbers_nil (col : list Cell) :
  numeric_series col → numbers col = [] ↔ filter notna col = [].
Proof.
  intros Hnum. induction Hnum as [|c col Hc _ IH]; [done|].
  destruct Hc as [-> | [q ->]]; unfold numbers in *; csimpl.
  - by rewrite filter_cons_False by (by intros ?).
  - by rewrite filter_cons_True.
Qed.

(** ** The cleaner on any table *)

Lemma lookup_insert_off (r : Row) (c c' : string) v :
  c' ≠ c → <[c := v]> r !! c' = r !! c'.
Proof. intros Hne. by rewrite lookup_insert_ne. Qed.

Section CleanerFrame.

Variable parse_numeric : Cell → option Qc.
Variable parse_datetime : list Cell → Cell → option Z.

Lemma to_numeric_idempotent c :
  to_numeric parse_numeric (to_numeric parse_numeric c)
  = to_numeric parse_numeric c.
Proof. by destruct (to_numeric_shape parse_numeric c) as [-> | [q ->]]. Qed.

Lemma to_datetime_idempotent col col' c :
  to_datetime parse_datetime col' (to_datetime parse_datetime col c)
  = to_datetime parse_datetime col c.
Proof.
  by destruct (to_datetime_shape parse_datetime col c) as [-> | [t ->]].
Qed.

(** What [clean_data] does to the columns it always handles the same way,
    and what it leaves alone, on any table on which it returns. *)
Lemma clean_data_rows df out :
  clean_data parse_numeric parse_datetime df = ok out →
  columns out = clean_columns df
  ∧ length (rows out) = length (rows df)
  ∧ ∀ i r, rows df !! i = Some r →
      ∃ r', rows out !! i = Some r'
        ∧ cell RATING r' = to_numeric parse_numeric (cell RATING r)
        ∧ cell PURCHASE r'
          = (if has_col df PURCHASE
             then to_datetime parse_datetime (series df PURCHASE)
                    (cell PURCHASE r)
             else cell PURCHASE r)
        ∧ cell FIRST_RESPONSE r'
          = (if has_col df FIRST_RESPONSE
             then first_response_ts parse_datetime df r
             else cell FIRST_RESPONSE r)
        ∧ ∀ c, c ∉ cleaned_columns → r' !! c = r !! c.
Proof.
  unfold clean_data.
  intros (rating & [Hrating _]%get_column_ok & Hout)%bind_ok.
  set (df1 := set_column df RATING
                (λ r, to_numeric parse_numeric (cell RATING r))) in *.
  set (df2 := parse_dates parse_datetime df1 PURCHASE) in *.
  set (df3 := parse_dates parse_datetime df2 FIRST_RESPONSE) in *.
  assert (Hcols1 : columns df1 = columns df)
    by (by apply columns_set_column_present).
  assert (Hcols3 : columns df3 = columns df).
  { subst df3 df2. by rewrite !columns_parse_dates. }
  assert (Hcol3 : ∀ c, has_col df3 c = has_col df c)
    by (intros c; by apply has_col_columns).
  assert (Hp1 : has_col df1 PURCHASE = has_col df PURCHASE)
    by (by apply has_col_columns).
  assert (Hf2 : has_col df2 FIRST_RESPONSE = has_col df FIRST_RESPONSE).
  { apply has_col_columns. subst df2. by rewrite columns_parse_dates. }
  assert (Hs1 : series df1 PURCHASE = series df PURCHASE)
    by (by apply series_set_column_ne).
  assert (Hs2 : series df2 FIRST_RESPONSE = series df FIRST_RESPONSE).
  { subst df2 df1.
    rewrite series_parse_dates_ne by distinct_columns.
    by rewrite series_set_column_ne by distinct_columns. }
  assert (Hlen3 : length (rows df3) = length (rows df)).
  { subst df3 df2. rewrite !rows_parse_dates, !length_fmap.
    subst df1. simpl. by rewrite length_fmap. }
  assert (Hrow3 : ∀ i r, rows df !! i = Some r →
    ∃ r3, rows df3 !! i = Some r3
      ∧ cell RATING r3 = to_numeric parse_numeric (cell RATING r)
      ∧ cell PURCHASE r3
        = (if has_col df PURCHASE
           then to_datetime parse_datetime (series df PURCHASE)
                  (cell PURCHASE r)
           else cell PURCHASE r)
      ∧ cell FIRST_RESPONSE r3
        = (if has_col df FIRST_RESPONSE
           then first_response_ts parse_datetime df r
           else cell FIRST_RESPONSE r)
      ∧ ∀ c, c ∉ cleaned_columns → r3 !! c = r !! c).
  { intros i r Hr.
    pose proof (lookup_set_column df RATING
                  (λ r, to_numeric parse_numeric (cell RATING r)) i r Hr) as H1.
    pose proof (lookup_parse_dates parse_datetime df1 PURCHASE i _ H1) as H2.
    pose proof (lookup_parse_dates parse_datetime df2 FIRST_RESPONSE i _ H2)
      as H3.
    rewrite Hf2, Hs2, Hp1, Hs1 in H3.
    eexists. split; [exact H3|]. unfold first_response_ts.
    destruct (has_col df PURCHASE), (has_col df FIRST_RESPONSE);
      cell_simpl; (repeat split; try done);
      intros c Hc; unfold cleaned_columns in Hc;
      rewrite ?lookup_insert_off; try done;
      intros ->; apply Hc; set_solver. }
  unfold clean_columns. rewrite Hcol3 in Hout.
  destruct (has_col df RESOLUTION) eqn:Hres; simpl.
  - rewrite has_col_set_column, Hcol3 in Hout. simpl in Hout.
    rewrite orb_false_r in Hout.
    assert (Hcols : ∀ f g,
      columns (set_column (set_column df3 RESOLUTION_TS f) RESOLUTION g)
      = (if negb (has_col df RESOLUTION_TS)
         then (columns df ++ [RESOLUTION_TS])%list else columns df)).
    { intros f g. rewrite columns_set_column_present
        by (by rewrite has_col_set_column, Hcol3, Hres).
      unfold set_column; simpl. rewrite Hcol3, Hcols3.
      by destruct (has_col df RESOLUTION_TS). }
    destruct (has_col df FIRST_RESPONSE) eqn:Hfirst; injection Hout as <-.
    + split; [|split].
      * rewrite columns_set_column_present; [apply Hcols|].
        by rewrite !has_col_set_column, Hcol3, Hres.
      * simpl. by rewrite !length_fmap.
      * intros i r Hr.
        destruct (Hrow3 i r Hr) as (r3 & Hr3 & Hra & Hpu & Hfr & Hoff).
        eexists. split; [by do 3 apply lookup_set_column|].
        cell_simpl. repeat split; try done.
        intros c Hc. rewrite <- (Hoff c Hc). unfold cleaned_columns in Hc.
        rewrite !lookup_insert_off; try done; intros ->; apply Hc; set_solver.
    + split; [|split].
      * apply Hcols.
      * simpl. by rewrite !length_fmap.
      * intros i r Hr.
        destruct (Hrow3 i r Hr) as (r3 & Hr3 & Hra & Hpu & Hfr & Hoff).
        eexists. split; [by do 2 apply lookup_set_column|].
        cell_simpl. repeat split; try done.
        intros c Hc. rewrite <- (Hoff c Hc). unfold cleaned_columns in Hc.
        rewrite !lookup_insert_off; try done; intros ->; apply Hc; set_solver.
  - injection Hout as <-. split; [done|]. split; [done|]. exact Hrow3.
Qed.

End CleanerFrame.

Section CleanerExtras.

Variable parse_numeric : Cell → option Qc.
Variable parse_datetime : list Cell → Cell → option Z.

Lemma has_col_clean_columns df out c :
  columns out = clean_columns df → c ≠ RESOLUTION_TS →
  has_col out c = has_col df c.
Proof.
  intros Hcols Hne. unfold has_col. rewrite Hcols. unfold clean_columns.
  destruct (_ && _); [|done].
  apply bool_decide_ext. rewrite elem_of_app, list_elem_of_singleton. tauto.
Qed.

Lemma clean_data_keeps_columns df out :
  clean_data parse_numeric parse_datetime df = ok out →
  ∀ c, c ∈ columns df → c ∈ columns out.
Proof.
  intros (Hcols & _)%clean_data_rows c Hc.
  rewrite Hcols. unfold clean_columns.
  destruct (_ && _); [|done]. apply elem_of_app. by left.
Qed.

(** X5: on any table on which it returns, [clean_data] keeps the number
    and the order of the rows, keeps the column names (appending the
    timestamp column when there is a resolution column and no timestamp
    column yet), and leaves every entry of every other column than the
    five it writes as it was. *)
Theorem clean_data_frame df out :
  clean_data parse_numeric parse_datetime df = ok out →
  columns out = clean_columns df
  ∧ (∀ c, c ∈ columns df → c ∈ columns out)
  ∧ length (rows out) = length (rows df)
  ∧ ∀ i r, rows df !! i = Some r →
      ∃ r', rows out !! i = Some r'
            ∧ ∀ c, c ∉ cleaned_columns → r' !! c = r !! c.
Proof.
  intros Hout.
  destruct (clean_data_rows _ _ _ _ Hout) as (Hcols & Hlen & Hrows).
  split; [done|]. split; [|split; [done|]].
  - by apply clean_data_keeps_columns.
  - intros i r Hr. destruct (Hrows i r Hr) as (r' & ? & _ & _ & _ & ?). eauto.
Qed.

(** X6: row by row, [clean_data] keeps a satisfaction rating that is a
    number, keeps a null rating null, turns a rating that the numeric
    parser rejects into null, and leaves nothing but numbers and nulls. *)
Theorem clean_data_ratings df out i r :
  clean_data parse_numeric parse_datetime df = ok out →
  rows df !! i = Some r →
  ∃ r', rows out !! i = Some r'
    ∧ (∀ q, cell RATING r = Num q → cell RATING r' = Num q)
    ∧ (cell RATING r = NA → cell RATING r' = NA)
    ∧ ((∀ q, cell RATING r ≠ Num q) →
       parse_numeric (cell RATING r) = None → cell RATING r' = NA)
    ∧ (cell RATING r' = NA ∨ ∃ q, cell RATING r' = Num q).
Proof.
  intros (_ & _ & Hrows)%clean_data_rows Hr.
  destruct (Hrows i r Hr) as (r' & Hr' & Hra & _).
  exists r'. split; [done|]. rewrite Hra. repeat split.
  - by intros q ->.
  - by intros ->.
  - intros Hnum Hparse. unfold to_numeric. rewrite Hparse.
    destruct (cell RATING r); try done. by destruct (Hnum q).
  - apply to_numeric_shape.
Qed.

(** X8: cleaning again changes nothing in the columns that [clean_data]
    converts in place.  When a cleaned table is cleaned a second time and
    the call returns, the satisfaction ratings, the purchase dates and
    the first-response timestamps are as the first cleaning made them. *)
Theorem clean_data_again df out out2 :
  clean_data parse_numeric parse_datetime df = ok out →
  clean_data parse_numeric parse_datetime out = ok out2 →
  series out2 RATING = series out RATING
  ∧ series out2 PURCHASE = series out PURCHASE
  ∧ series out2 FIRST_RESPONSE = series out FIRST_RESPONSE.
Proof.
  intros Hout Hout2.
  destruct (clean_data_rows _ _ _ _ Hout) as (Hcols & Hlen & Hrows).
  destruct (clean_data_rows _ _ _ _ Hout2) as (_ & Hlen2 & Hrows2).
  assert (Hseries : ∀ c,
    (∀ i r r' r'', rows df !! i = Some r → rows out !! i = Some r' →
       rows out2 !! i = Some r'' →
       (∃ r1, rows out !! i = Some r1
              ∧ cell RATING r1 = to_numeric parse_numeric (cell RATING r)
              ∧ cell PURCHASE r1
                = (if has_col df PURCHASE
                   then to_datetime parse_datetime (series df PURCHASE)
                          (cell PURCHASE r)
                   else cell PURCHASE r)
              ∧ cell FIRST_RESPONSE r1
                = (if has_col df FIRST_RESPONSE
                   then first_response_ts parse_datetime df r
                   else cell FIRST_RESPONSE r)) →
       (∃ r2, rows out2 !! i = Some r2
              ∧ cell RATING r2 = to_numeric parse_numeric (cell RATING r')
              ∧ cell PURCHASE r2
                = (if has_col out PURCHASE
                   then to_datetime parse_datetime (series out PURCHASE)
                          (cell PURCHASE r')
                   else cell PURCHASE r')
              ∧ cell FIRST_RESPONSE r2
                = (if has_col out FIRST_RESPONSE
                   then first_response_ts parse_datetime out r'
                   else cell FIRST_RESPONSE r')) →
       cell c r'' = cell c r') →
    series out2 c = series out c).
  { intros c Hc. unfold series. apply list_eq. intros i.
    rewrite !list_lookup_fmap.
    destruct (rows out !! i) as [r'|] eqn:Hr'.
    - destruct (lookup_lt_is_Some_2 (rows df) i) as [r Hr].
      { rewrite <- Hlen. by eapply lookup_lt_Some. }
      destruct (Hrows i r Hr) as (r1 & Hr1 & H1).
      destruct (Hrows2 i r' Hr') as (r2 & Hr2 & H2).
      rewrite Hr2. simpl. f_equal.
      apply (Hc i r r' r2 Hr Hr' Hr2).
      + exists r1. split; [done|]. tauto.
      + exists r2. split; [done|]. tauto.
    - apply lookup_ge_None in Hr'. rewrite <- Hlen2 in Hr'.
      apply lookup_ge_None in Hr'. by rewrite Hr'. }
  repeat split; apply Hseries; intros i r r' r'' Hr Hr' Hr''
    (r1 & Hr1 & Hra1 & Hpu1 & Hfr1) (r2 & Hr2 & Hra2 & Hpu2 & Hfr2);
    rewrite Hr' in Hr1; injection Hr1 as <-;
    rewrite Hr'' in Hr2; injection Hr2 as <-.
  - rewrite Hra2, Hra1. apply to_numeric_idempotent.
  - rewrite Hpu2, (has_col_clean_columns df) by (done || distinct_columns).
    destruct (has_col df PURCHASE); [|done].
    rewrite Hpu1. apply to_datetime_idempotent.
  - rewrite Hfr2, (has_col_clean_columns df) by (done || distinct_columns).
    destruct (has_col df FIRST_RESPONSE); [|done].
    unfold first_response_ts in *. rewrite Hfr1.
    apply to_datetime_idempotent.
Qed.

(** The durations that [clean_data] leaves are null or above zero,
    whether or not the table has a first-response column. *)
Lemma clean_data_durations df out :
  has_col df RESOLUTION = true →
  clean_data parse_numeric parse_datetime df = ok out →
  Forall (λ r', null_or_positive (cell RESOLUTION r')) (rows out).
Proof.
  intros Hres Hout.
  destruct (clean_data_rows _ _ _ _ Hout) as (_ & Hlen & _).
  apply Forall_lookup. intros i r' Hr'.
  destruct (lookup_lt_is_Some_2 (rows df) i) as [r Hr].
  { rewrite <- Hlen. by eapply lookup_lt_Some. }
  destruct (has_col df FIRST_RESPONSE) eqn:Hfirst.
  - destruct (clean_data_resolution _ _ df out Hres Hfirst Hout)
      as (_ & _ & Hrows).
    destruct (Hrows i r Hr) as (r'' & Hr'' & _ & _ & Hdur).
    rewrite Hr' in Hr''. injection Hr'' as <-.
    rewrite Hdur. apply duration_shape.
  - destruct (clean_data_no_first_response _ _ df out Hres Hfirst Hout i r Hr)
      as (r'' & Hr'' & Hna).
    rewrite Hr' in Hr''. injection Hr'' as <-. by left.
Qed.

End CleanerExtras.

Lemma clean_data_frame_witness :
  ∃ out r',
    clean_data Sample.parse_numeric Sample.parse_datetime Sample.raw = ok out
    ∧ rows out !! 2%nat = Some r'
    ∧ r' !! STATUS = Some (Str "open").
Proof.
  destruct (clean_data Sample.parse_numeric Sample.parse_datetime Sample.raw)
    as [e|out] eqn:Hout; [by vm_compute in Hout|].
  destruct (clean_data_frame _ _ _ _ Hout) as (_ & _ & _ & Hrows).
  destruct (Hrows 2%nat _ eq_refl) as (r' & Hr' & Hoff).
  exists out, r'. split; [done|]. split; [done|].
  rewrite Hoff; [by vm_compute|].
  unfold cleaned_columns. rewrite !not_elem_of_cons.
  repeat split; try distinct_columns. apply not_elem_of_nil.
Defined.

Lemma clean_data_ratings_witness :
  ∃ out r',
    clean_data Sample.parse_numeric Sample.parse_datetime Sample.raw = ok out
    ∧ rows out !! 1%nat = Some r'
    ∧ cell RATING r' = NA.
Proof.
  destruct (clean_data Sample.parse_numeric Sample.parse_datetime Sample.raw)
    as [e|out] eqn:Hout; [by vm_compute in Hout|].
  destruct (clean_data_ratings _ _ _ _ 1%nat _ Hout eq_refl)
    as (r' & Hr' & _ & _ & Hna & _).
  exists out, r'. split; [done|]. split; [done|].
  apply Hna; [|done]. intros q. by vm_compute.
Defined.

Lemma clean_data_again_witness :
  ∃ out out2,
    clean_data Sample.parse_numeric Sample.parse_datetime Sample.raw = ok out
    ∧ clean_data Sample.parse_numeric Sample.parse_datetime out = ok out2
    ∧ series out2 RATING = series out RATING.
Proof.
  destruct (clean_data Sample.parse_numeric Sample.parse_datetime Sample.raw)
    as [e|out] eqn:Hout; [by vm_compute in Hout|].
  destruct (clean_data Sample.parse_numeric Sample.parse_datetime out)
    as [e|out2] eqn:Hout2.
  { exfalso. revert Hout2. injection Hout as <-. by vm_compute. }
  destruct (clean_data_again _ _ _ _ _ Hout Hout2) as (Hrating & _).
  by exists out, out2.
Defined.

(** ** Key performance indicators on any table *)

Lemma length_filter_disjoint {A} (P Q : A → Prop)
    `{!∀ x, Decision (P x)} `{!∀ x, Decision (Q x)} (l : list A) :
  (∀ x, P x → Q x → False) →
  (length (filter P l) + length (filter Q l) ≤ length l)%nat.
Proof.
  intros Hdisj. induction l as [|a l IH]; [done|].
  rewrite !filter_cons.
  destruct (decide (P a)) as [HP|HP], (decide (Q a)) as [HQ|HQ]; simpl;
    [by destruct (Hdisj a)|lia..].
Qed.

Lemma count_status_present df s :
  has_col df STATUS = true →
  count_status df s
  = ok (length (filter (λ r, cell STATUS r = Str s) (rows df))).
Proof.
  intros Hc.
  destruct (count_status df s) as [e|n] eqn:Hn.
  - unfold count_status in Hn. rewrite !get_column_present in Hn by done.
    simpl in Hn. by destruct (bool_decide _).
  - by apply count_status_ok in Hn as ->.
Qed.

(** The record that [calculate_kpis] returns, when it returns. *)
Lemma calculate_kpis_ok df k :
  calculate_kpis df = ok k →
  has_col df RATING = true ∧ has_col df RESOLUTION = true
  ∧ has_col df STATUS = true
  ∧ k = {| total_tickets := len df;
           avg_satisfaction := average (numbers (series df RATING));
           avg_resolution_time := average (numbers (series df RESOLUTION));
           open_tickets :=
             length (filter (λ r, cell STATUS r = Str "Open") (rows df));
           closed_tickets :=
             length (filter (λ r, cell STATUS r = Str "Closed") (rows df)) |}.
Proof.
  unfold calculate_kpis. intros (sat & Hsat & H1)%bind_ok.
  apply bind_ok in Hsat as (c1 & [Hc1 ->]%get_column_ok & ->%mean_ok).
  apply bind_ok in H1 as (res & Hres & H2).
  apply bind_ok in Hres as (c2 & [Hc2 ->]%get_column_ok & ->%mean_ok).
  apply bind_ok in H2 as (n_open & Hopen & H3).
  apply bind_ok in H3 as (n_closed & Hclosed & [= <-]).
  assert (Hst : has_col df STATUS = true).
  { unfold count_status in Hopen.
    by apply bind_ok in Hopen as (? & [? _]%get_column_ok & _). }
  apply count_status_ok in Hopen as ->.
  by apply count_status_ok in Hclosed as ->.
Qed.

(** X9: whatever [calculate_kpis] returns, the total is the number of
    rows, and the open and the closed tickets together are at most the
    total. *)
Theorem calculate_kpis_totals df k :
  calculate_kpis df = ok k →
  total_tickets k = len df
  ∧ (open_tickets k + closed_tickets k ≤ total_tickets k)%nat.
Proof.
  intros (_ & _ & _ & ->)%calculate_kpis_ok. simpl. split; [done|].
  apply length_filter_disjoint. by intros r ->.
Qed.

Lemma calculate_kpis_totals_witness :
  ∃ k, calculate_kpis Sample.cleaned = ok k ∧ total_tickets k = 4%nat.
Proof.
  destruct (calculate_kpis Sample.cleaned) as [e|k] eqn:Hk;
    [by vm_compute in Hk|].
  exists k. split; [done|].
  by destruct (calculate_kpis_totals _ _ Hk) as [-> _].
Defined.

(** X10: on columns of numbers and nulls, an average that
    [calculate_kpis] returns is null exactly when its column holds no
    number: the average satisfaction when no row has a rating, the
    average resolution time when no row has a duration.  And when no
    rating is negative, the average satisfaction is not negative. *)
Theorem calculate_kpis_average_null df k :
  calculate_kpis df = ok k →
  numeric_series (series df RATING) →
  numeric_series (series df RESOLUTION) →
  (avg_satisfaction k = NA ↔ ∀ q, Num q ∉ series df RATING)
  ∧ (avg_resolution_time k = NA ↔ ∀ q, Num q ∉ series df RESOLUTION)
  ∧ ((∀ q, Num q ∈ series df RATING → (0 ≤ q)%Qc) →
     avg_satisfaction k = NA
     ∨ ∃ m, avg_satisfaction k = Num m ∧ (0 ≤ m)%Qc).
Proof.
  intros (_ & _ & _ & ->)%calculate_kpis_ok _ _. simpl.
  split; [apply average_null|]. split; [apply average_null|].
  intros Hsign. apply average_nonneg, Forall_forall.
  intros q Hq. by apply Hsign, elem_of_numbers.
Qed.

Lemma calculate_kpis_average_null_witness :
  ∃ k, calculate_kpis Sample.cleaned = ok k
    ∧ avg_satisfaction k ≠ NA
    ∧ avg_resolution_time k ≠ NA.
Proof.
  assert (Hnum : ∀ col, col = series Sample.cleaned RATING
                        ∨ col = series Sample.cleaned RESOLUTION →
                 numeric_series col).
  { intros col [-> | ->]; unfold numeric_series; vm_compute;
      repeat (apply Forall_cons; split;
                [first [by left | right; eexists; reflexivity]|]);
      by apply Forall_nil. }
  destruct (calculate_kpis Sample.cleaned) as [e|k] eqn:Hk;
    [by vm_compute in Hk|].
  exists k. split; [done|].
  destruct (calculate_kpis_average_null _ _ Hk) as (Hsat & Hres & _);
    [auto..|].
  split.
  - intros Hna. apply (proj1 Hsat Hna (Q2Qc 5)). vm_compute. by left.
  - intros Hna. apply (proj1 Hres Hna (Q2Qc 2)). vm_compute. by left.
Defined.

Lemma calculate_kpis_ready df :
  has_col df RATING = true → has_col df RESOLUTION = true →
  has_col df STATUS = true →
  numeric_series (series df RATING) →
  numeric_series (series df RESOLUTION) →
  ∃ k, calculate_kpis df = ok k.
Proof.
  intros H1 H2 H3 Hn1 Hn2. unfold calculate_kpis.
  rewrite !get_column_present by done. simpl.
  rewrite !mean_numeric by done. simpl.
  rewrite !count_status_present by done. simpl. eauto.
Qed.

(** X11: [calculate_kpis] returns on every table that has the rating,
    resolution and status columns with numbers or nulls in the first
    two; the first of these three columns that the table lacks is the one
    its [KeyError] names. *)
Theorem calculate_kpis_columns df :
  (has_col df RATING = true → has_col df RESOLUTION = true →
   has_col df STATUS = true →
   numeric_series (series df RATING) →
   numeric_series (series df RESOLUTION) →
   ∃ k, calculate_kpis df = ok k)
  ∧ (has_col df RATING = false →
     calculate_kpis df = raise (KeyError RATING))
  ∧ (has_col df RATING = true → numeric_series (series df RATING) →
     has_col df RESOLUTION = false →
     calculate_kpis df = raise (KeyError RESOLUTION))
  ∧ (has_col df RATING = true → numeric_series (series df RATING) →
     has_col df RESOLUTION = true →
     numeric_series (series df RESOLUTION) →
     has_col df STATUS = false →
     calculate_kpis df = raise (KeyError STATUS)).
Proof.
  split; [apply calculate_kpis_ready|].
  unfold calculate_kpis. repeat split.
  - intros H1. by rewrite get_column_absent.
  - intros H1 Hn1 H2. rewrite get_column_present by done. simpl.
    rewrite mean_numeric by done. simpl. by rewrite get_column_absent.
  - intros H1 Hn1 H2 Hn2 H3. rewrite !get_column_present by done. simpl.
    rewrite !mean_numeric by done. simpl.
    unfold count_status. by rewrite get_column_absent.
Qed.

Lemma calculate_kpis_columns_witness :
  (∃ k, calculate_kpis Sample.cleaned = ok k)
  ∧ calculate_kpis Sample.no_rating = raise (KeyError RATING)
  ∧ calculate_kpis Sample.no_priority = raise (KeyError RESOLUTION).
Proof.
  assert (Hnum : ∀ col, col = series Sample.cleaned RATING
                        ∨ col = series Sample.cleaned RESOLUTION
                        ∨ col = series Sample.no_priority RATING →
                 numeric_series col).
  { intros col [-> | [-> | ->]]; unfold numeric_series; vm_compute;
      repeat (apply Forall_cons; split;
                [first [by left | right; eexists; reflexivity]|]);
      by apply Forall_nil. }
  split; [|split].
  - apply (proj1 (calculate_kpis_columns Sample.cleaned)); auto.
  - by apply (calculate_kpis_columns Sample.no_rating).
  - apply (calculate_kpis_columns Sample.no_priority); auto.
Defined.

(** ** The pipeline: clean, filter, summarise *)

Lemma Forall_rows_filter_data (P : Row → Prop) df dr p c s pr out :
  filter_data df dr p c s pr = ok out →
  Forall P (rows df) → Forall P (rows out).
Proof.
  intros (_ & _ & _ & _ & ->)%filter_data_ok HP. simpl.
  apply Forall_forall. intros r [_ Hr]%list_elem_of_filter.
  rewrite Forall_forall in HP. by apply HP.
Qed.

(** X12: the pipeline composes.  When [clean_data] returns on a table
    with the resolution, first-response and status columns and
    [filter_data] returns on
    its output, [calculate_kpis] returns on the filtered table: its total
    is at most the number of rows of the raw table, its average
    satisfaction is null or a number, and its average resolution time is
    null or above zero. *)
Theorem pipeline_kpis parse_numeric parse_datetime df cleaned
    date_range priorities channels statuses products filtered :
  has_col df RESOLUTION = true → has_col df FIRST_RESPONSE = true →
  has_col df STATUS = true →
  clean_data parse_numeric parse_datetime df = ok cleaned →
  filter_data cleaned date_range priorities channels statuses products
  = ok filtered →
  ∃ k, calculate_kpis filtered = ok k
    ∧ (total_tickets k ≤ len df)%nat
    ∧ (avg_satisfaction k = NA ∨ ∃ q, avg_satisfaction k = Num q)
    ∧ null_or_positive (avg_resolution_time k).
Proof.
  intros Hres _ Hstatus Hclean Hfilter.
  destruct (clean_data_rows _ _ _ _ Hclean) as (Hcols & Hlen & _).
  destruct (filter_data_ok _ _ _ _ _ _ _ Hfilter) as (_ & _ & _ & _ & Hout).
  assert (Hrating : has_col df RATING = true).
  { destruct (has_col df RATING) eqn:Hrating; [done|].
    by rewrite clean_data_raises in Hclean. }
  assert (Hcol : ∀ c, c ≠ RESOLUTION_TS → has_col filtered c = has_col df c).
  { intros c Hc. rewrite <- (has_col_clean_columns df cleaned c) by done.
    apply has_col_columns. by rewrite Hout. }
  assert (Hnum : numeric_series (series filtered RATING)).
  { unfold numeric_series, series. apply Forall_fmap.
    eapply Forall_rows_filter_data; [exact Hfilter|].
    apply Forall_fmap. by eapply clean_data_rating_numeric. }
  assert (Hdur : Forall (λ r, null_or_positive (cell RESOLUTION r))
                   (rows filtered)).
  { eapply Forall_rows_filter_data; [exact Hfilter|].
    by eapply clean_data_durations. }
  assert (Hnum2 : numeric_series (series filtered RESOLUTION)).
  { unfold numeric_series, series. apply Forall_fmap.
    eapply Forall_impl; [exact Hdur|].
    intros r [Hna | (q & Hq & _)]; simpl; eauto. }
  destruct (calculate_kpis_ready filtered) as [k Hk]; try done;
    try (rewrite Hcol by distinct_columns; done).
  exists k. split; [done|].
  destruct (calculate_kpis_ok _ _ Hk) as (_ & _ & _ & ->). simpl.
  split; [|split].
  - unfold len. rewrite Hout. simpl. rewrite <- Hlen. apply length_filter.
  - unfold average. destruct (numbers _); eauto.
  - apply average_positive, Forall_forall.
    intros q Hq%elem_of_numbers. unfold series in Hq.
    apply list_elem_of_fmap in Hq as (r & Hq & Hr).
    rewrite Forall_forall in Hdur.
    destruct (Hdur r Hr) as [Hna | (q' & Hq' & Hpos)]; congruence.
Qed.

Lemma pipeline_kpis_witness :
  ∃ cleaned filtered k,
    clean_data Sample.parse_numeric Sample.parse_datetime Sample.raw
    = ok cleaned
    ∧ filter_data cleaned None (Some [Str "High"]) None None None
      = ok filtered
    ∧ calculate_kpis filtered = ok k
    ∧ null_or_positive (avg_resolution_time k).
Proof.
  destruct (clean_data Sample.parse_numeric Sample.parse_datetime Sample.raw)
    as [e|cleaned] eqn:Hclean; [by vm_compute in Hclean|].
  destruct (filter_data cleaned None (Some [Str "High"]) None None None)
    as [e|filtered] eqn:Hfilter.
  { exfalso. revert Hfilter. injection Hclean as <-. by vm_compute. }
  destruct (pipeline_kpis _ _ Sample.raw cleaned _ _ _ _ _ filtered
              eq_refl eq_refl eq_refl Hclean Hfilter)
    as (k & Hk & _ & _ & Hpos).
  by exists cleaned, filtered, k.
Defined.

(** ** Volume by group on any table *)

Lemma get_volume_by_group_ok df group_column out :
  get_volume_by_group df group_column = ok out →
  has_col df group_column = true
  ∧ entries out = value_counts (series df group_column).
Proof.
  unfold get_volume_by_group.
  by intros (col & [Hc ->]%get_column_ok
             & (inserted & _ & [= <-])%bind_ok)%bind_ok.
Qed.

Lemma value_counts_entry col k :
  k ∈ col →
  ∃ e, e ∈ value_counts col ∧ vol_group e = k
       ∧ vol_count e = length (filter (λ c, c = k) col).
Proof.
  intros Hk. exists {| vol_group := k;
                       vol_count := length (filter (λ c, c = k) col) |}.
  split; [|done]. unfold value_counts. rewrite stable_sort_Permutation.
  apply list_elem_of_fmap. eexists. split; [done|]. by apply elem_of_distinct.
Qed.

(** X13: in a result of [get_volume_by_group] every group has at least
    one row, there are at most as many groups as rows (none for an empty
    table), and the first group is a most frequent value: no value of the
    column occurs more often than its count says. *)
Theorem get_volume_by_group_mode df group_column out :
  get_volume_by_group df group_column = ok out →
  Forall (λ e, (1 ≤ vol_count e)%nat) (entries out)
  ∧ (length (entries out) ≤ len df)%nat
  ∧ ∀ first rest k,
      entries out = first :: rest →
      (length (filter (λ r, cell group_column r = k) (rows df))
       ≤ vol_count first)%nat.
Proof.
  intros [Hcol Hentries]%get_volume_by_group_ok. rewrite Hentries.
  set (col := series df group_column).
  assert (Hcounts := value_counts_counts col).
  assert (Hgroups := value_counts_groups col).
  assert (Hone : Forall (λ e, (1 ≤ vol_count e)%nat) (value_counts col)).
  { apply Forall_forall. intros e He.
    rewrite Forall_forall in Hcounts. rewrite (Hcounts e He).
    assert (Hin : vol_group e ∈ col).
    { apply elem_of_distinct. rewrite <- Hgroups.
      apply list_elem_of_fmap. eauto. }
    destruct (filter (λ c, c = vol_group e) col) eqn:Hf; [|simpl; lia].
    by destruct (filter_nil_not_elem_of _ _ (vol_group e) Hf). }
  split; [done|]. split.
  - assert (Hsum := value_counts_sum col).
    unfold len, col, series in *. rewrite length_fmap in Hsum.
    rewrite <- Hsum. clear -Hone.
    induction Hone as [|e l He _ IH]; simpl; lia.
  - intros first rest k Heq.
    rewrite <- (length_filter_fmap (cell group_column)).
    change (cell group_column <$> rows df) with col.
    destruct (decide (k ∈ col)) as [Hk | Hk].
    + destruct (value_counts_entry col k Hk) as (e & He & <- & <-).
      pose proof (StronglySorted_stable_sort count_desc
        ((λ k, {| vol_group := k;
                  vol_count := length (filter (λ c, c = k) col) |})
           <$> distinct col)) as Hsorted.
      fold (value_counts col) in Hsorted. rewrite Heq in Hsorted, He.
      apply StronglySorted_inv in Hsorted as [_ Hall].
      apply elem_of_cons in He as [-> | He]; [done|].
      rewrite Forall_forall in Hall. by apply Hall.
    + rewrite filter_none; [simpl; lia|].
      by intros c Hc ->.
Qed.

Lemma get_volume_by_group_mode_witness :
  ∃ out, get_volume_by_group Sample.cleaned PRIORITY = ok out
    ∧ (length (entries out) ≤ 4)%nat.
Proof.
  destruct (get_volume_by_group Sample.cleaned PRIORITY) as [e|out] eqn:Hout;
    [by vm_compute in Hout|].
  exists out. split; [done|].
  by destruct (get_volume_by_group_mode _ _ _ Hout) as (_ & Hlen & _).
Defined.

(** X14: the status chart and the KPIs agree: when both
    [calculate_kpis] and [get_volume_by_group] on the status column
    return, the count listed for ["Open"] is the KPI of open tickets, and
    ["Open"] is not listed exactly when that KPI is zero; likewise for
    ["Closed"]. *)
Theorem status_volume_matches_kpis df k out :
  calculate_kpis df = ok k →
  get_volume_by_group df STATUS = ok out →
  (∀ e, e ∈ entries out →
     (vol_group e = Str "Open" → vol_count e = open_tickets k)
     ∧ (vol_group e = Str "Closed" → vol_count e = closed_tickets k))
  ∧ (Str "Open" ∉ vol_group <$> entries out ↔ open_tickets k = 0%nat)
  ∧ (Str "Closed" ∉ vol_group <$> entries out ↔ closed_tickets k = 0%nat).
Proof.
  intros (_ & _ & _ & ->)%calculate_kpis_ok
         [_ Hentries]%get_volume_by_group_ok.
  rewrite Hentries. simpl.
  assert (Hcounts := value_counts_counts (series df STATUS)).
  assert (Hzero : ∀ s,
    Str s ∉ vol_group <$> value_counts (series df STATUS)
    ↔ length (filter (λ r, cell STATUS r = Str s) (rows df)) = 0%nat).
  { intros s. rewrite value_counts_groups, elem_of_distinct.
    rewrite <- (length_filter_fmap (cell STATUS)). fold (series df STATUS).
    split.
    - intros Hno. rewrite filter_none; [done|]. by intros c Hc ->.
    - intros Hlen Hin.
      apply length_zero_iff_nil in Hlen.
      by destruct (filter_nil_not_elem_of _ _ (Str s) Hlen). }
  split; [|split; apply Hzero].
  intros e He. rewrite Forall_forall in Hcounts. rewrite (Hcounts e He).
  split; intros ->; apply length_filter_fmap.
Qed.

Lemma status_volume_matches_kpis_witness :
  ∃ k out, calculate_kpis Sample.cleaned = ok k
    ∧ get_volume_by_group Sample.cleaned STATUS = ok out
    ∧ ∀ e, e ∈ entries out → vol_group e = Str "Open" → vol_count e = 2%nat.
Proof.
  destruct (calculate_kpis Sample.cleaned) as [e|k] eqn:Hk;
    [by vm_compute in Hk|].
  destruct (get_volume_by_group Sample.cleaned STATUS) as [e|out] eqn:Hout;
    [by vm_compute in Hout|].
  exists k, out. split; [done|]. split; [done|].
  intros e He Hopen.
  destruct (status_volume_matches_kpis _ _ _ Hk Hout) as (Hcount & _).
  rewrite (proj1 (Hcount e He) Hopen).
  destruct (calculate_kpis_ok _ _ Hk) as (_ & _ & _ & ->). by vm_compute.
Defined.

(** ** Satisfaction by group on any table *)

(** The rows of a result of [get_satisfaction_by_group], up to their
    order: one aggregated row per distinct key of the rated rows. *)
Lemma get_satisfaction_by_group_entries df group_column out :
  get_satisfaction_by_group df group_column = ok out →
  has_col df group_column = true →
  numeric_series (series df RATING) →
  entries out
  ≡ₚ group_row (rated_rows df) group_column
       <$> distinct (cell group_column <$> rated_rows df).
Proof.
  intros Hout Hgroup Hnum.
  assert (Hrating : has_col df RATING = true).
  { unfold get_satisfaction_by_group in Hout.
    by apply bind_ok in Hout as (? & [? _]%get_column_ok & _). }
  destruct (decide (rated_rows df = [])) as [Hnil | Hne].
  - rewrite get_satisfaction_by_group_no_rating in Hout by done.
    injection Hout as <-. by rewrite Hnil.
  - destruct (decide (group_column ∈ agg_names)) as [Hin | Hnin].
    { by rewrite get_satisfaction_by_group_collision in Hout. }
    rewrite get_satisfaction_by_group_rated in Hout by done.
    injection Hout as <-. simpl.
    by rewrite !stable_sort_Permutation.
Qed.

Lemma group_members_nonempty (l : list Row) c k :
  k ∈ cell c <$> l → group_members l c k ≠ [].
Proof.
  intros (r & -> & Hr)%list_elem_of_fmap Hnil.
  by destruct (filter_nil_not_elem_of _ _ r Hnil).
Qed.

(** X15: in a result of [get_satisfaction_by_group] on numeric ratings,
    every group has at least one rated row and a mean that is a number,
    there are at most as many groups as rated rows, and the result lists
    no group exactly when no row is rated. *)
Theorem get_satisfaction_by_group_groups df group_column out :
  get_satisfaction_by_group df group_column = ok out →
  has_col df group_column = true →
  numeric_series (series df RATING) →
  Forall (λ e, (1 ≤ sat_count e)%nat ∧ ∃ m, sat_mean e = Num m)
    (entries out)
  ∧ (length (entries out) ≤ length (rated_rows df))%nat
  ∧ (entries out = [] ↔ rated_rows df = []).
Proof.
  intros Hout Hgroup Hnum.
  pose proof (get_satisfaction_by_group_entries _ _ _ Hout Hgroup Hnum)
    as Hperm.
  assert (Hrows : Forall (λ e, (1 ≤ sat_count e)%nat
                               ∧ ∃ m, sat_mean e = Num m) (entries out)).
  { rewrite Hperm. apply Forall_fmap, Forall_forall.
    intros k Hk. rewrite elem_of_distinct in Hk. simpl. split; [|eauto].
    pose proof (group_members_nonempty (rated_rows df) group_column k Hk).
    destruct (group_members (rated_rows df) group_column k);
      [done|simpl; lia]. }
  split; [done|]. split.
  - assert (Hsum : sum_list_with sat_count (entries out)
                   = length (rated_rows df)).
    { rewrite Hperm, sum_list_with_fmap. simpl.
      apply group_sizes_sum; [apply NoDup_distinct|].
      intros r Hr. apply elem_of_distinct, list_elem_of_fmap. eauto. }
    rewrite <- Hsum. clear -Hrows.
    induction Hrows as [|e l [He _] _ IH]; simpl; lia.
  - split.
    + intros Hnil. rewrite Hnil in Hperm. symmetry in Hperm.
      apply Permutation_nil_r, fmap_nil_inv in Hperm.
      by destruct (rated_rows df).
    + intros Hnil. rewrite Hnil in Hperm. by apply Permutation_nil_r.
Qed.

Lemma get_satisfaction_by_group_groups_witness :
  ∃ out, get_satisfaction_by_group Sample.three_ratings PRIORITY = ok out
    ∧ (length (entries out) ≤ 3)%nat
    ∧ entries out ≠ [].
Proof.
  destruct (get_satisfaction_by_group Sample.three_ratings PRIORITY)
    as [e|out] eqn:Hout; [by vm_compute in Hout|].
  exists out. split; [done|].
  destruct (get_satisfaction_by_group_groups _ _ _ Hout)
    as (_ & Hlen & Hnil); [done| |].
  - unfold numeric_series. vm_compute.
    repeat (apply Forall_cons; split;
              [first [by left | right; eexists; reflexivity]|]).
    by apply Forall_nil.
  - split; [exact Hlen|]. by intros Hempty%Hnil.
Defined.

(** X17: the grouped summaries raise [KeyError] for a missing column:
    [get_volume_by_group] for its group column,
    [get_satisfaction_by_group] for the rating column, and for its group
    column once some row is rated, [get_resolution_by_group] for the
    resolution column. *)
Theorem grouping_missing_column df group_column :
  (has_col df group_column = false →
   get_volume_by_group df group_column = raise (KeyError group_column))
  ∧ (has_col df RATING = false →
     get_satisfaction_by_group df group_column = raise (KeyError RATING))
  ∧ (has_col df RATING = true → rated_rows df ≠ [] →
     has_col df group_column = false →
     get_satisfaction_by_group df group_column
     = raise (KeyError group_column))
  ∧ (has_col df RESOLUTION = false →
     get_resolution_by_group df group_column
     = raise (KeyError RESOLUTION)).
Proof.
  repeat split.
  - intros Hc. unfold get_volume_by_group. by rewrite get_column_absent.
  - intros Hc. unfold get_satisfaction_by_group.
    by rewrite get_column_absent.
  - intros Hrating Hne Hc. unfold get_satisfaction_by_group.
    rewrite get_column_present by done. simpl.
    unfold len. simpl. rewrite mask_rows_notna.
    rewrite bool_decide_eq_false_2 by (by intros ?%nil_length_inv).
    unfold get_column, has_col in *. simpl. by rewrite Hc.
  - intros Hc. unfold get_resolution_by_group.
    by rewrite get_column_absent.
Qed.

Lemma grouping_missing_column_witness :
  get_volume_by_group Sample.cleaned CHANNEL = raise (KeyError CHANNEL)
  ∧ get_satisfaction_by_group Sample.no_rating PRIORITY
    = raise (KeyError RATING)
  ∧ get_satisfaction_by_group Sample.cleaned CHANNEL
    = raise (KeyError CHANNEL).
Proof.
  split; [|split].
  - by apply (grouping_missing_column Sample.cleaned CHANNEL).
  - by apply (grouping_missing_column Sample.no_rating PRIORITY).
  - by apply (grouping_missing_column Sample.cleaned CHANNEL).
Defined.

(** ** Resolution time by group *)

Global Instance mean_asc_total : Total mean_asc.
Proof.
  intros a b. unfold mean_asc.
  destruct (res_mean a) as [| |x|], (res_mean b) as [| |y|]; auto.
  destruct (total Qcle x y); auto.
Qed.

Global Instance mean_asc_trans : Transitive mean_asc.
Proof.
  intros a b c. unfold mean_asc.
  destruct (res_mean a) as [| |x|], (res_mean b) as [| |y|],
    (res_mean c) as [| |z|]; try done.
  intros Hxy Hyz. by transitivity y.
Qed.

Lemma gt_zero_numeric (col : list Cell) :
  numeric_series col →
  traverse gt_zero col = ok ((λ c, bool_decide (is_positive c)) <$> col).
Proof.
  intros Hnum. apply traverse_total.
  eapply Forall_impl; [exact Hnum|].
  by intros c [-> | [q ->]].
Qed.

Lemma mask_rows_positive (l : list Row) :
  mask_rows
    (zip_with andb ((λ c, bool_decide (notna c)) <$> (cell RESOLUTION <$> l))
       ((λ c, bool_decide (is_positive c)) <$> (cell RESOLUTION <$> l))) l
  = filter (λ r, is_positive (cell RESOLUTION r)) l.
Proof.
  rewrite <- !list_fmap_compose, zip_with_andb_fmap, mask_rows_fmap.
  apply list_filter_iff. intros r; simpl.
  rewrite andb_true_iff, !bool_decide_eq_true. unfold notna.
  destruct (cell RESOLUTION r); simpl; intuition congruence.
Qed.

Lemma resolved_rows_numbers df :
  Forall (λ r, ∃ q, cell RESOLUTION r = Num q ∧ (0 < q)%Qc) (resolved_rows df).
Proof.
  apply Forall_forall. intros r [Hr _]%list_elem_of_filter.
  destruct (cell RESOLUTION r); try done. eauto.
Qed.

Lemma aggregate_resolution_group (valid : list Row) (c : string) (k : Cell) :
  Forall (λ r, ∃ q, cell RESOLUTION r = Num q ∧ (0 < q)%Qc) valid →
  k ∈ cell c <$> valid →
  aggregate_resolution valid c k = ok (duration_row valid c k).
Proof.
  intros Hnum Hk. unfold aggregate_resolution.
  fold (group_members valid c k).
  assert (Hmem : Forall (λ c, ∃ q, c = Num q)
                   (cell RESOLUTION <$> group_members valid c k)).
  { apply Forall_fmap, Forall_forall.
    intros r [_ Hr]%list_elem_of_filter.
    rewrite Forall_forall in Hnum. destruct (Hnum r Hr) as (q & ? & _).
    simpl. eauto. }
  rewrite mean_numbers; [|..|done].
  - simpl. rewrite count_numbers by done.
    unfold duration_row, duration_mean. by rewrite !length_fmap.
  - intros Hnil%fmap_nil_inv. by apply (group_members_nonempty valid c k).
Qed.

Lemma duration_mean_positive (valid : list Row) (c : string) (k : Cell) :
  Forall (λ r, ∃ q, cell RESOLUTION r = Num q ∧ (0 < q)%Qc) valid →
  k ∈ cell c <$> valid →
  (0 < duration_mean valid c k)%Qc.
Proof.
  intros Hnum Hk. unfold duration_mean.
  pose proof (group_members_nonempty valid c k Hk) as Hne.
  apply Qcmult_pos_pos.
  - apply Qc_sum_positive.
    + by intros ?%fmap_nil_inv%fmap_nil_inv.
    + apply Forall_fmap, Forall_fmap, Forall_forall.
      intros r [_ Hr]%list_elem_of_filter.
      rewrite Forall_forall in Hnum. destruct (Hnum r Hr) as (q & Hq & Hpos).
      simpl. by rewrite Hq.
  - apply Qcinv_pos, Qc_of_nat_pos.
    destruct (group_members valid c k); [done|simpl; lia].
Qed.

Lemma get_resolution_by_group_none df group_column :
  has_col df RESOLUTION = true →
  numeric_series (series df RESOLUTION) →
  resolved_rows df = [] →
  get_resolution_by_group df group_column = ok empty_summary.
Proof.
  intros Hres Hnum Hnil. unfold get_resolution_by_group.
  rewrite !get_column_present by done. simpl.
  rewrite gt_zero_numeric by done. simpl.
  unfold len, series. simpl. rewrite mask_rows_positive.
  fold (resolved_rows df). by rewrite Hnil.
Qed.

Lemma get_resolution_by_group_some df group_column :
  has_col df RESOLUTION = true → has_col df group_column = true →
  numeric_series (series df RESOLUTION) →
  resolved_rows df ≠ [] →
  group_column ∉ agg_names →
  get_resolution_by_group df group_column
  = ok (mkSummary [group_column; "Average Resolution Time"; "Count"]
          (stable_sort mean_asc
             (duration_row (resolved_rows df) group_column
                <$> stable_sort key_le
                      (distinct (cell group_column <$> resolved_rows df))))).
Proof.
  intros Hres Hgroup Hnum Hne Hname. unfold get_resolution_by_group.
  rewrite !get_column_present by done. simpl.
  rewrite gt_zero_numeric by done. simpl.
  unfold len. rewrite get_column_select by done. unfold series. simpl.
  rewrite !mask_rows_positive. fold (resolved_rows df).
  rewrite bool_decide_eq_false_2 by (by intros ?%nil_length_inv).
  rewrite (traverse_total _ (duration_row (resolved_rows df) group_column)).
  { simpl. by rewrite reset_index_ok. }
  apply Forall_forall. intros k Hk.
  rewrite stable_sort_Permutation, elem_of_distinct in Hk.
  apply aggregate_resolution_group; [|done].
  apply resolved_rows_numbers.
Qed.

Lemma get_resolution_by_group_collision df group_column :
  has_col df RESOLUTION = true → has_col df group_column = true →
  numeric_series (series df RESOLUTION) →
  resolved_rows df ≠ [] →
  group_column ∈ agg_names →
  get_resolution_by_group df group_column = raise ValueError.
Proof.
  intros Hres Hgroup Hnum Hne Hname. unfold get_resolution_by_group.
  rewrite !get_column_present by done. simpl.
  rewrite gt_zero_numeric by done. simpl.
  unfold len. rewrite get_column_select by done. unfold series. simpl.
  rewrite !mask_rows_positive. fold (resolved_rows df).
  rewrite bool_decide_eq_false_2 by (by intros ?%nil_length_inv).
  rewrite (traverse_total _ (duration_row (resolved_rows df) group_column)).
  { simpl. by rewrite reset_index_raises. }
  apply Forall_forall. intros k Hk.
  rewrite stable_sort_Permutation, elem_of_distinct in Hk.
  apply aggregate_resolution_group; [|done].
  apply resolved_rows_numbers.
Qed.

Lemma get_resolution_by_group_sum df group_column :
  has_col df RESOLUTION = true → has_col df group_column = true →
  numeric_series (series df RESOLUTION) →
  group_column ∉ agg_names →
  ∃ out, get_resolution_by_group df group_column = ok out
    ∧ sum_list_with res_count (entries out) = length (resolved_rows df).
Proof.
  intros Hres Hgroup Hnum Hname.
  destruct (decide (resolved_rows df = [])) as [Hnil | Hne].
  - rewrite get_resolution_by_group_none by done.
    eexists. split; [reflexivity|]. by rewrite Hnil.
  - rewrite get_resolution_by_group_some by done.
    eexists. split; [reflexivity|]. simpl.
    rewrite stable_sort_Permutation, sum_list_with_fmap.
    rewrite stable_sort_Permutation. simpl.
    apply group_sizes_sum; [apply NoDup_distinct|].
    intros r Hr. apply elem_of_distinct, list_elem_of_fmap. eauto.
Qed.

(** X18: [get_resolution_by_group] on a table whose resolution column
    holds numbers or nulls returns the empty result when no duration is
    above zero.  When the table also has the group column, the column
    being named neither "mean" nor "count", it returns one
    row per distinct value that the group column takes on the rows with a
    duration above zero, null being a value like the others; the count of
    a row is the number of such rows in its group, its mean is the
    arithmetic mean of their durations and is above zero; the rows are in
    ascending order of mean; the counts add up to the number of rows with
    a duration above zero. *)
Theorem get_resolution_by_group_means df group_column :
  has_col df RESOLUTION = true →
  numeric_series (series df RESOLUTION) →
  (resolved_rows df = [] →
   get_resolution_by_group df group_column = ok empty_summary)
  ∧ (has_col df group_column = true →
     group_column ≠ "mean" → group_column ≠ "count" →
     ∃ out, get_resolution_by_group df group_column = ok out
       ∧ NoDup (res_group <$> entries out)
       ∧ (∀ k, k ∈ res_group <$> entries out
               ↔ k ∈ cell group_column <$> resolved_rows df)
       ∧ Forall (λ e,
                   res_count e
                   = length (group_members (resolved_rows df) group_column
                               (res_group e))
                   ∧ res_mean e
                     = Num (duration_mean (resolved_rows df) group_column
                              (res_group e))
                   ∧ (0 < duration_mean (resolved_rows df) group_column
                            (res_group e))%Qc)
           (entries out)
       ∧ StronglySorted
           (λ a b, ∃ x y, res_mean a = Num x ∧ res_mean b = Num y
                          ∧ (x ≤ y)%Qc)
           (entries out)
       ∧ sum_list_with res_count (entries out)
         = length (resolved_rows df)).
Proof.
  intros Hres Hnum. split.
  { by apply get_resolution_by_group_none. }
  intros Hgroup Hmean Hcount.
  destruct (decide (resolved_rows df = [])) as [Hnil | Hne].
  { rewrite get_resolution_by_group_none by done.
    eexists. split; [reflexivity|]. simpl. rewrite Hnil. csimpl.
    repeat split; try constructor; try done. }
  rewrite get_resolution_by_group_some;
    [|done..|by apply not_elem_of_agg_names].
  eexists. split; [reflexivity|]. simpl.
  set (valid := resolved_rows df).
  set (keys := cell group_column <$> valid).
  assert (Hgroups :
    res_group <$> stable_sort mean_asc
                    (duration_row valid group_column
                       <$> stable_sort key_le (distinct keys))
    ≡ₚ distinct keys).
  { rewrite stable_sort_Permutation, <- list_fmap_compose.
    rewrite list_fmap_id. apply stable_sort_Permutation. }
  assert (Hrows : Forall (λ e,
    res_count e = length (group_members valid group_column (res_group e))
    ∧ res_mean e = Num (duration_mean valid group_column (res_group e))
    ∧ (0 < duration_mean valid group_column (res_group e))%Qc)
    (stable_sort mean_asc
       (duration_row valid group_column
          <$> stable_sort key_le (distinct keys)))).
  { rewrite !stable_sort_Permutation. apply Forall_fmap, Forall_forall.
    intros k Hk. rewrite elem_of_distinct in Hk. simpl.
    split; [done|]. split; [done|].
    apply duration_mean_positive; [apply resolved_rows_numbers|done]. }
  split; [|split; [|split; [|split]]].
  - rewrite Hgroups. apply NoDup_distinct.
  - intros k. rewrite Hgroups. apply elem_of_distinct.
  - exact Hrows.
  - eapply StronglySorted_refine;
      [|exact Hrows|apply (StronglySorted_stable_sort mean_asc)].
    intros a b (_ & Ha & _) (_ & Hb & _). unfold mean_asc.
    rewrite Ha, Hb. eauto.
  - rewrite stable_sort_Permutation, sum_list_with_fmap.
    rewrite stable_sort_Permutation. simpl.
    apply group_sizes_sum; [apply NoDup_distinct|].
    intros r Hr. apply elem_of_distinct. unfold keys.
    apply list_elem_of_fmap. eauto.
Qed.

Lemma get_resolution_by_group_means_witness :
  ∃ out, get_resolution_by_group Sample.cleaned PRIORITY = ok out
    ∧ sum_list_with res_count (entries out) = 2%nat.
Proof.
  destruct (proj2 (get_resolution_by_group_means Sample.cleaned PRIORITY
                     eq_refl
                     ltac:(unfold numeric_series; vm_compute;
                           repeat (apply Forall_cons; split;
                             [first [by left
                                    | right; eexists; reflexivity]|]);
                           by apply Forall_nil)))
    as (out & Hout & _ & _ & _ & _ & Hsum); [done..|].
  exists out. split; [done|]. rewrite Hsum. by vm_compute.
Defined.

Lemma filter_iff_in {A} (P Q : A → Prop)
    `{!∀ x, Decision (P x)} `{!∀ x, Decision (Q x)} (l : list A) :
  (∀ x, x ∈ l → P x ↔ Q x) → filter P l = filter Q l.
Proof.
  induction l as [|a l IH]; intros Hiff; [done|].
  rewrite !filter_cons, IH by (intros x Hx; apply Hiff; by right).
  destruct (decide (P a)) as [HP|HP], (decide (Q a)) as [HQ|HQ]; try done.
  - destruct HQ. by apply (Hiff a); [left|].
  - destruct HP. by apply (Hiff a); [left|].
Qed.

(** X19: after cleaning, the [> 0] guard of [get_resolution_by_group]
    removes nothing but nulls.  When [clean_data] returns on a table with
    the resolution and first-response columns and a group column, named
    neither "mean" nor "count", and [filter_data] returns on its output,
    [get_resolution_by_group] returns on the filtered table, and its
    counts add up to the number of filtered rows whose duration is not
    null. *)
Theorem pipeline_resolution parse_numeric parse_datetime df cleaned
    date_range priorities channels statuses products filtered group_column :
  has_col df RESOLUTION = true → has_col df FIRST_RESPONSE = true →
  has_col df group_column = true →
  group_column ≠ "mean" → group_column ≠ "count" →
  clean_data parse_numeric parse_datetime df = ok cleaned →
  filter_data cleaned date_range priorities channels statuses products
  = ok filtered →
  ∃ out, get_resolution_by_group filtered group_column = ok out
    ∧ sum_list_with res_count (entries out)
      = length (filter (λ r, notna (cell RESOLUTION r)) (rows filtered)).
Proof.
  intros Hres _ Hgroup Hmean Hcount Hclean Hfilter.
  pose proof (clean_data_keeps_columns _ _ _ _ Hclean) as Hsub.
  destruct (filter_data_ok _ _ _ _ _ _ _ Hfilter) as (_ & _ & _ & _ & Hout).
  assert (Hcol : ∀ c, has_col df c = true → has_col filtered c = true).
  { intros c Hc%has_col_true. apply has_col_true.
    rewrite Hout. simpl. by apply Hsub. }
  assert (Hdur : Forall (λ r, null_or_positive (cell RESOLUTION r))
                   (rows filtered)).
  { eapply Forall_rows_filter_data; [exact Hfilter|].
    by eapply clean_data_durations. }
  assert (Hnum : numeric_series (series filtered RESOLUTION)).
  { unfold numeric_series, series. apply Forall_fmap.
    eapply Forall_impl; [exact Hdur|].
    intros r [Hna | (q & Hq & _)]; simpl; eauto. }
  destruct (get_resolution_by_group_sum filtered group_column
              (Hcol _ Hres) (Hcol _ Hgroup) Hnum
              (not_elem_of_agg_names _ Hmean Hcount))
    as (out & Hgot & Hsum).
  exists out. split; [done|]. rewrite Hsum. unfold resolved_rows. f_equal.
  apply filter_iff_in. intros r Hr. rewrite Forall_forall in Hdur.
  unfold notna. destruct (Hdur r Hr) as [-> | (q & -> & Hpos)]; simpl.
  - split; [done|]. by intros [].
  - done.
Qed.

Lemma pipeline_resolution_witness :
  ∃ cleaned filtered out,
    clean_data Sample.parse_numeric Sample.parse_datetime Sample.raw
    = ok cleaned
    ∧ filter_data cleaned None None None (Some [Str "Open"]) None
      = ok filtered
    ∧ get_resolution_by_group filtered PRIORITY = ok out
    ∧ sum_list_with res_count (entries out)
      = length (filter (λ r, notna (cell RESOLUTION r)) (rows filtered)).
Proof.
  destruct (clean_data Sample.parse_numeric Sample.parse_datetime Sample.raw)
    as [e|cleaned] eqn:Hclean; [by vm_compute in Hclean|].
  destruct (filter_data cleaned None None None (Some [Str "Open"]) None)
    as [e|filtered] eqn:Hfilter.
  { exfalso. revert Hfilter. injection Hclean as <-. by vm_compute. }
  destruct (pipeline_resolution _ _ Sample.raw cleaned _ _ _ _ _ filtered
              PRIORITY eq_refl eq_refl eq_refl ltac:(done) ltac:(done)
              Hclean Hfilter)
    as (out & Hout & Hsum).
  by exists cleaned, filtered, out.
Defined.

(** ** The option lists of the sidebar *)

Lemma options_ok df c opts :
  options df c = ok opts →
  has_col df c = true ∧ opts = distinct (filter notna (series df c)).
Proof.
  unfold options.
  by intros (col & [Hc ->]%get_column_ok & [= <-])%bind_ok.
Qed.

Lemma options_elem df c opts x :
  options df c = ok opts → x ∈ opts ↔ x ∈ series df c ∧ x ≠ NA.
Proof.
  intros [_ ->]%options_ok.
  rewrite elem_of_distinct, list_elem_of_filter. unfold notna. tauto.
Qed.

(** X20: an option list of the sidebar holds every non-null value of its
    column exactly once and never a null. *)
Theorem options_values df c opts :
  options df c = ok opts →
  NoDup opts ∧ ∀ x, x ∈ opts ↔ x ∈ series df c ∧ x ≠ NA.
Proof.
  intros Hopts. split.
  - apply options_ok in Hopts as [_ ->]. apply NoDup_distinct.
  - intros x. by apply options_elem.
Qed.

Lemma options_values_witness :
  ∃ opts, options Sample.cleaned RATING = ok opts ∧ NA ∉ opts.
Proof.
  destruct (options Sample.cleaned RATING) as [e|opts] eqn:Hopts;
    [by vm_compute in Hopts|].
  exists opts. split; [done|].
  destruct (options_values _ _ _ Hopts) as [_ Hin].
  by intros [_ Hna]%Hin.
Defined.

Lemma allowed_options df c opts r :
  options df c = ok opts → r ∈ rows df →
  allowed (Some opts) c r ↔ known df c r.
Proof.
  intros Hopts Hr.
  pose proof (λ x, options_elem df c opts x Hopts) as Hin.
  assert (Hcell : cell c r ∈ series df c).
  { unfold series. apply list_elem_of_fmap. eauto. }
  unfold known. destruct opts as [|v vs]; simpl.
  - split; [|done]. intros _.
    destruct (decide (cell c r = NA)) as [Hna | Hna]; [|by left].
    right. apply Forall_forall. intros x Hx.
    destruct (decide (x = NA)) as [|Hne]; [done|].
    assert (Hx' : x ∈ @nil Cell) by (by apply Hin).
    by apply elem_of_nil in Hx'.
  - rewrite Hin. split.
    + intros [_ Hne]. by left.
    + intros [Hne | Hall]; [done|].
      destruct (proj1 (Hin v)) as [Hv Hvne]; [by left|].
      rewrite Forall_forall in Hall. by destruct Hvne, (Hall v Hv).
Qed.

(** X21: selecting every option of the four sidebar lists does not keep
    every row.  With the lists that [options] computes passed whole to
    [filter_data], a result keeps exactly the rows inside the date
    constraint whose priority, channel, status and product are all known:
    a row with a null in one of these columns is dropped, unless that
    column has no value at all. *)
Theorem all_options_selected df date_range priorities channels statuses
    products out :
  options df PRIORITY = ok priorities → options df CHANNEL = ok channels →
  options df STATUS = ok statuses → options df PRODUCT = ok products →
  filter_data df date_range (Some priorities) (Some channels)
    (Some statuses) (Some products) = ok out →
  rows out
  = filter (λ r, dated df date_range r
                 ∧ known df PRIORITY r ∧ known df CHANNEL r
                 ∧ known df STATUS r ∧ known df PRODUCT r)
      (rows df).
Proof.
  intros Hp Hc Hs Hpr (_ & _ & _ & _ & ->)%filter_data_ok. simpl.
  apply filter_iff_in. intros r Hr. unfold passes.
  rewrite (allowed_options _ _ _ _ Hp Hr), (allowed_options _ _ _ _ Hc Hr).
  by rewrite (allowed_options _ _ _ _ Hs Hr), (allowed_options _ _ _ _ Hpr Hr).
Qed.

Lemma all_options_selected_witness :
  ∃ priorities channels statuses products out,
    options Demo.tickets PRIORITY = ok priorities
    ∧ options Demo.tickets CHANNEL = ok channels
    ∧ options Demo.tickets STATUS = ok statuses
    ∧ options Demo.tickets PRODUCT = ok products
    ∧ filter_data Demo.tickets None (Some priorities) (Some channels)
        (Some statuses) (Some products) = ok out
    ∧ length (rows out) = 2%nat.
Proof.
  destruct (options Demo.tickets PRIORITY) as [e|p] eqn:Hp;
    [by vm_compute in Hp|].
  destruct (options Demo.tickets CHANNEL) as [e|c] eqn:Hc;
    [by vm_compute in Hc|].
  destruct (options Demo.tickets STATUS) as [e|s] eqn:Hs;
    [by vm_compute in Hs|].
  destruct (options Demo.tickets PRODUCT) as [e|pr] eqn:Hpr;
    [by vm_compute in Hpr|].
  destruct (filter_data Demo.tickets None (Some p) (Some c) (Some s) (Some pr))
    as [e|out] eqn:Hout.
  { exfalso. revert Hout.
    apply options_ok in Hp as [_ ->]. apply options_ok in Hc as [_ ->].
    apply options_ok in Hs as [_ ->]. apply options_ok in Hpr as [_ ->].
    by vm_compute. }
  exists p, c, s, pr, out. repeat split; try done.
  rewrite (all_options_selected _ _ _ _ _ _ _ Hp Hc Hs Hpr Hout).
  by vm_compute.
Defined.

(** X22: the satisfaction summary composes with cleaning and filtering.
    When [clean_data] returns on a table with a group column, named
    neither "mean" nor "count", and [filter_data] returns on its output,
    [get_satisfaction_by_group] returns on the filtered table, every
    group mean is a number, and the counts add up to the number of
    filtered rows with a rating. *)
Theorem pipeline_satisfaction parse_numeric parse_datetime df cleaned
    date_range priorities channels statuses products filtered group_column :
  has_col df group_column = true →
  group_column ≠ "mean" → group_column ≠ "count" →
  clean_data parse_numeric parse_datetime df = ok cleaned →
  filter_data cleaned date_range priorities channels statuses products
  = ok filtered →
  ∃ out, get_satisfaction_by_group filtered group_column = ok out
    ∧ Forall (λ e, ∃ m, sat_mean e = Num m) (entries out)
    ∧ sum_list_with sat_count (entries out) = length (rated_rows filtered).
Proof.
  intros Hgroup Hmean Hcount Hclean Hfilter.
  pose proof (not_elem_of_agg_names _ Hmean Hcount) as Hname.
  pose proof (clean_data_keeps_columns _ _ _ _ Hclean) as Hsub.
  destruct (filter_data_ok _ _ _ _ _ _ _ Hfilter) as (_ & _ & _ & _ & Hout).
  assert (Hcol : ∀ c, has_col df c = true → has_col filtered c = true).
  { intros c Hc%has_col_true. apply has_col_true.
    rewrite Hout. simpl. by apply Hsub. }
  assert (Hrating : has_col df RATING = true).
  { destruct (has_col df RATING) eqn:Hrating; [done|].
    by rewrite clean_data_raises in Hclean. }
  assert (Hnum : numeric_series (series filtered RATING)).
  { unfold numeric_series, series. apply Forall_fmap.
    eapply Forall_rows_filter_data; [exact Hfilter|].
    apply Forall_fmap. by eapply clean_data_rating_numeric. }
  destruct (decide (rated_rows filtered = [])) as [Hnil | Hne].
  - rewrite get_satisfaction_by_group_no_rating by auto.
    eexists. split; [reflexivity|]. simpl. rewrite Hnil.
    split; [constructor|done].
  - rewrite get_satisfaction_by_group_rated by auto.
    eexists. split; [reflexivity|]. simpl. split.
    + rewrite stable_sort_Permutation. apply Forall_fmap, Forall_forall.
      intros k _. simpl. eauto.
    + rewrite stable_sort_Permutation, sum_list_with_fmap.
      rewrite stable_sort_Permutation. simpl.
      apply group_sizes_sum; [apply NoDup_distinct|].
      intros r Hr. apply elem_of_distinct, list_elem_of_fmap. eauto.
Qed.

Lemma pipeline_satisfaction_witness :
  ∃ cleaned filtered out,
    clean_data Sample.parse_numeric Sample.parse_datetime Sample.raw
    = ok cleaned
    ∧ filter_data cleaned None (Some [Str "High"]) None None None
      = ok filtered
    ∧ get_satisfaction_by_group filtered STATUS = ok out
    ∧ sum_list_with sat_count (entries out) = length (rated_rows filtered).
Proof.
  destruct (clean_data Sample.parse_numeric Sample.parse_datetime Sample.raw)
    as [e|cleaned] eqn:Hclean; [by vm_compute in Hclean|].
  destruct (filter_data cleaned None (Some [Str "High"]) None None None)
    as [e|filtered] eqn:Hfilter.
  { exfalso. revert Hfilter. injection Hclean as <-. by vm_compute. }
  destruct (pipeline_satisfaction _ _ Sample.raw cleaned _ _ _ _ _ filtered
              STATUS eq_refl ltac:(done) ltac:(done) Hclean Hfilter)
    as (out & Hout & _ & Hsum).
  by exists cleaned, filtered, out.
Defined.

(** ** Group columns named like an aggregate *)

(** X23: a group column that carries the name of an aggregate makes
    [.reset_index()] raise [ValueError].  [get_volume_by_group] raises it
    for a column named "count" of the table;
    [get_satisfaction_by_group] and [get_resolution_by_group] raise it
    for a column named "mean" or "count", once some row has a rating,
    respectively a duration above zero. *)
Theorem grouping_name_collision df group_column :
  (has_col df "count" = true →
   get_volume_by_group df "count" = raise ValueError)
  ∧ (has_col df RATING = true → has_col df group_column = true →
     numeric_series (series df RATING) → rated_rows df ≠ [] →
     group_column = "mean" ∨ group_column = "count" →
     get_satisfaction_by_group df group_column = raise ValueError)
  ∧ (has_col df RESOLUTION = true → has_col df group_column = true →
     numeric_series (series df RESOLUTION) → resolved_rows df ≠ [] →
     group_column = "mean" ∨ group_column = "count" →
     get_resolution_by_group df group_column = raise ValueError).
Proof.
  assert (Hnames : group_column = "mean" ∨ group_column = "count" →
                   group_column ∈ agg_names).
  { unfold agg_names. intros [-> | ->]; [by left|right; by left]. }
  split; [|split].
  - intros Hcol. unfold get_volume_by_group.
    by rewrite get_column_present.
  - intros. apply get_satisfaction_by_group_collision; auto.
  - intros. apply get_resolution_by_group_collision; auto.
Qed.

Lemma grouping_name_collision_witness :
  get_volume_by_group Sample.named_like_aggregates "count" = raise ValueError
  ∧ get_satisfaction_by_group Sample.named_like_aggregates "count"
    = raise ValueError.
Proof.
  destruct (grouping_name_collision Sample.named_like_aggregates "count")
    as (Hvolume & Hsatisfaction & _).
  split; [by apply Hvolume|].
  apply Hsatisfaction; [done|done| |done|by right].
  unfold numeric_series. vm_compute.
  repeat (apply Forall_cons; split;
            [first [by left | right; eexists; reflexivity]|]).
  by apply Forall_nil.
Defined.
